(** * Nexius clan bot: the points ledger and award engine of [main.py]

    A shallow embedding of the point economy of the Discord clan bot:
    the SQLite tables and the process-local trackers become one explicit
    [State]; every handler is a function from a state (and the instant
    read from the clock) to a reply and a new state.

    Modelling conventions.
    - A [datetime] is the number of microseconds since 1970-01-01T00:00:00
      (naive UTC), a calendar day is its day number since that date.  An
      ISO text written by [isoformat()] and read back by [fromisoformat()]
      is represented by the instant it denotes.
    - A Python [float] is the rational number it denotes.  The products the
      award path computes ([1 * 1.5], [5 * 1.5]) are exact in binary64.
    - SQLite [INTEGER] and Python [int] are [Z].
    - All clock reads of one handler invocation return the same instant,
      passed as the argument [now].
    - The datastore is available: every statement acts on the one shared
      store and takes effect at once; I/O failures are outside the model.
      A write that a second connection attempts while the first holds
      an open write transaction fails (the database is locked); the code
      does this in one place, [removepoints], and it is modelled there.
      A Python exception that the code itself provokes (arithmetic on
      [None], an attribute of [None], an integer beyond SQLite's 64 bits)
      is modelled where it occurs, with the rollback of the enclosing
      [with] block. *)

From Stdlib Require Import ZArith QArith Lia.
From stdpp Require Import gmap strings list fin_maps pretty.

Local Open Scope Z_scope.

(** ** Time *)

Definition datetime := Z.

Definition US_PER_SECOND : Z := 1000000.
Definition US_PER_DAY : Z := 86400 * US_PER_SECOND.

(** Day number of an instant; stands for [strftime('%Y-%m-%d')]. *)
Definition utc_date (now : datetime) : Z := now / US_PER_DAY.

(** [datetime.weekday()]: Monday is 0, Sunday is 6.  Day 0 was a Thursday. *)
Definition weekday (now : datetime) : Z := (utc_date now + 3) mod 7.

(** [get_week_start]: back [weekday] days, then truncated to midnight. *)
Definition get_week_start (now : datetime) : datetime :=
  (utc_date now - weekday now) * US_PER_DAY.

(** ** Floats as the rationals they denote *)

(** Python's [int(x)] on a float: truncation toward zero. *)
Definition py_int (x : Q) : Z := Z.quot (Qnum x) (Z.pos (Qden x)).

(** The binary64 value of the literal [0.1]. *)
Definition float_0_1 : Q := 3602879701896397 # 36028797018963968.

(** ** Tables *)

(** A TEXT cell that holds a timestamp: SQL NULL, the empty string, or the
    ISO text of an instant. *)
Inductive TextCell :=
  | Null
  | Empty
  | Iso (t : datetime).

#[global] Instance TextCell_eq_dec : EqDecision TextCell.
Proof. solve_decision. Defined.

Record ClanRow := mkClan {
  clan_points : Z;
  last_week_start : TextCell;
  last_week_points : Z;
  max_points : Z
}.

Record UserRow := mkUser {
  user_clan_name : option string;
  user_points : Z;
  streak_days : Z;
  last_active : TextCell;
  join_date : TextCell;
  weekly_cap : Z
}.

Record LogRow := mkLog {
  log_user_id : Z;
  log_amount : Z;
  log_source : string;
  log_timestamp : datetime;
  log_channel_id : option Z
}.

Record AchievementRow := mkAchievement {
  ach_user_id : Z;
  achievement_name : string;
  earned_date : datetime
}.

Record ShopRow := mkShop {
  shop_id : Z;
  shop_name : string;
  shop_cost : Z
}.

Record ChannelMultiplierRow := mkChannelMultiplier {
  multiplier : Q;
  channel_name : string
}.

Record SeasonalEventRow := mkSeasonalEvent {
  start_date : string;
  end_date : string;
  point_multiplier : Q;
  is_active : Z
}.

(** One entry of [user_daily_points]; [None] is the initial date ['']. *)
Record DailyPoints := mkDaily {
  daily_date : option Z;
  daily_points : Z
}.

#[global] Instance DailyPoints_eq_dec : EqDecision DailyPoints.
Proof. solve_decision. Defined.

(** The database [clans.db] together with the module-level trackers. *)
Record State := mkState {
  clans : gmap string ClanRow;
  users : gmap Z UserRow;
  logs : list LogRow;
  config : gmap string string;
  achievements : list AchievementRow;
  shop : list ShopRow;
  channel_multipliers : gmap Z ChannelMultiplierRow;
  seasonal_events : gmap string SeasonalEventRow;
  last_message_time : gmap Z datetime;
  user_daily_points : gmap Z DailyPoints
}.

Definition set_clans (v : gmap string ClanRow) (st : State) : State :=
  mkState v (users st) (logs st) (config st) (achievements st) (shop st)
          (channel_multipliers st) (seasonal_events st)
          (last_message_time st) (user_daily_points st).

Definition set_users (v : gmap Z UserRow) (st : State) : State :=
  mkState (clans st) v (logs st) (config st) (achievements st) (shop st)
          (channel_multipliers st) (seasonal_events st)
          (last_message_time st) (user_daily_points st).

Definition set_logs (v : list LogRow) (st : State) : State :=
  mkState (clans st) (users st) v (config st) (achievements st) (shop st)
          (channel_multipliers st) (seasonal_events st)
          (last_message_time st) (user_daily_points st).

Definition set_achievements (v : list AchievementRow) (st : State) : State :=
  mkState (clans st) (users st) (logs st) (config st) v (shop st)
          (channel_multipliers st) (seasonal_events st)
          (last_message_time st) (user_daily_points st).

Definition set_channel_multipliers (v : gmap Z ChannelMultiplierRow)
    (st : State) : State :=
  mkState (clans st) (users st) (logs st) (config st) (achievements st)
          (shop st) v (seasonal_events st)
          (last_message_time st) (user_daily_points st).

Definition set_last_message_time (v : gmap Z datetime) (st : State) : State :=
  mkState (clans st) (users st) (logs st) (config st) (achievements st)
          (shop st) (channel_multipliers st) (seasonal_events st)
          v (user_daily_points st).

Definition set_user_daily_points (v : gmap Z DailyPoints) (st : State) : State :=
  mkState (clans st) (users st) (logs st) (config st) (achievements st)
          (shop st) (channel_multipliers st) (seasonal_events st)
          (last_message_time st) v.

(** ** The chat platform, as far as the handlers look at it *)

Record Role := mkRole {
  role_id : Z;
  role_name : string
}.

Record Member := mkMember {
  member_id : Z;
  member_bot : bool;
  member_roles : list Role
}.

Record Guild := mkGuild {
  guild_roles : list Role;
  guild_members : gmap Z Member
}.

Record Message := mkMessage {
  msg_author : Member;
  msg_type_default : bool;
  msg_content : string;
  msg_channel_id : Z;
  msg_guild : option Guild
}.

(** [guild.get_member(user_id)] *)
Definition get_member (g : Guild) (user_id : Z) : option Member :=
  guild_members g !! user_id.

(** [discord.utils.get(roles, name=n)]: the first role of that name. *)
Definition utils_get_role (roles : list Role) (n : string) : option Role :=
  find (λ r, bool_decide (role_name r = n)) roles.

(** [role in roles]: roles compare by id. *)
Definition role_in (r : Role) (roles : list Role) : bool :=
  existsb (λ r', bool_decide (role_id r' = role_id r)) roles.

(** Truth value of an optional string: [None] and [''] are false. *)
Definition str_truthy (s : option string) : bool :=
  match s with
  | None => false
  | Some s' => negb (bool_decide (s' = ""%string))
  end.

(** ** Rate limiting and the daily budget *)

Definition MESSAGE_COOLDOWN : Z := 5.
Definition MAX_DAILY_POINTS : Z := 500.

(** Reading a [defaultdict] creates the missing entry. *)
Definition defaultdict_get {V} (d : V) (k : Z) (m : gmap Z V) : V * gmap Z V :=
  match m !! k with
  | Some v => (v, m)
  | None => (d, <[k := d]> m)
  end.

Definition is_rate_limited (now : datetime) (user_id : Z) (st : State)
    : bool * State :=
  let '(last, m) := defaultdict_get 0 user_id (last_message_time st) in
  (Z.ltb (now - last) (MESSAGE_COOLDOWN * US_PER_SECOND),
   set_last_message_time m st).

Definition check_daily_limit (now : datetime) (user_id points_to_add : Z)
    (st : State) : bool * State :=
  let today := utc_date now in
  let '(user_data, m) :=
    defaultdict_get (mkDaily None 0) user_id (user_daily_points st) in
  let user_data' :=
    if decide (daily_date user_data ≠ Some today)
    then mkDaily (Some today) 0
    else user_data in
  (Z.leb (daily_points user_data' + points_to_add) MAX_DAILY_POINTS,
   set_user_daily_points (<[user_id := user_data']> m) st).

(** ** Weekly cycle *)

Definition get_clan_points (now : datetime) (clan : string) (st : State)
    : option Z * State :=
  match clans st !! clan with
  | None => (None, st)
  | Some data =>
      match last_week_start data with
      | Iso last_reset =>
          if Z.ltb last_reset (get_week_start now) then
            (Some 0,
             set_clans (<[clan := mkClan 0 (Iso (get_week_start now))
                                         (clan_points data) (max_points data)]>
                          (clans st)) st)
          else (Some (clan_points data), st)
      | Null | Empty => (Some (clan_points data), st)
      end
  end.

(** The row a read at [now] leaves in the table: the rolled-over row when
    the stored week is past, the stored row otherwise. *)
Definition current_week_row (now : datetime) (data : ClanRow) : ClanRow :=
  match last_week_start data with
  | Iso last_reset =>
      if Z.ltb last_reset (get_week_start now) then
        mkClan 0 (Iso (get_week_start now)) (clan_points data) (max_points data)
      else data
  | Null | Empty => data
  end.

Definition can_add_to_clan (now : datetime) (clan : string) (amount : Z)
    (st : State) : bool * State :=
  let '(current, st1) := get_clan_points now clan st in
  match clans st1 !! clan with
  | None => (false, st1)
  | Some data =>
      (match current with
       | Some cur => Z.leb (cur + amount) (max_points data)
       | None => false
       end, st1)
  end.

Definition get_bonus_role (st : State) : option string :=
  config st !! "bonus_role"%string.

(** ** Achievements *)

Definition milestones : list Z := [100; 500; 1000; 2500; 5000; 10000].

(** [f"Reached {milestone} Points"] *)
Definition milestone_name (milestone : Z) : string :=
  ("Reached " +:+ pretty milestone +:+ " Points")%string.

(** The primary key [(user_id, achievement_name)] of the table. *)
Definition achievement_key (r : AchievementRow) : Z * string :=
  (ach_user_id r, achievement_name r).

Definition has_achievement (k : Z * string) (rows : list AchievementRow) : bool :=
  existsb (λ r, bool_decide (achievement_key r = k)) rows.

(** [INSERT OR IGNORE INTO achievements]: a row whose key is taken is dropped. *)
Definition insert_or_ignore (row : AchievementRow) (rows : list AchievementRow)
    : list AchievementRow :=
  if has_achievement (achievement_key row) rows then rows else rows ++ [row].

(** One turn of the loop over [milestones]: the name is appended to the
    returned list whether or not the insertion took place. *)
Definition check_milestone (now : datetime) (user_id points : Z)
    (acc : list string * list AchievementRow) (milestone : Z)
    : list string * list AchievementRow :=
  if Z.leb milestone points then
    (acc.1 ++ [milestone_name milestone],
     insert_or_ignore (mkAchievement user_id (milestone_name milestone) now) acc.2)
  else acc.

(** Returns [None] when the user has no row (the bare [return]). *)
Definition check_achievements (now : datetime) (user_id : Z) (st : State)
    : option (list string) * State :=
  match users st !! user_id with
  | None => (None, st)
  | Some row =>
      let r := foldl (check_milestone now user_id (user_points row))
                     ([], achievements st) milestones in
      (Some r.1, set_achievements r.2 st)
  end.

(** ** Award engine *)

Definition add_points_to_clan_and_user (now : datetime) (user_id : Z)
    (clan : string) (amount : Z) (source : string) (channel_id : option Z)
    (st : State) : bool * State :=
  let '(ok, st1) := can_add_to_clan now clan amount st in
  if negb ok then (false, st1) else
  let '(ok, st2) := check_daily_limit now user_id amount st1 in
  if negb ok then (false, st2) else
  let '(current, st3) := get_clan_points now clan st2 in
  match current with
  | None => (false, st3)
  | Some current_clan_points =>
      let new_clan_total := current_clan_points + amount in
      let st4 :=
        set_clans (alter (λ c, mkClan new_clan_total (last_week_start c)
                                      (last_week_points c) (max_points c))
                         clan (clans st3)) st3 in
      let st5 :=
        match users st4 !! user_id with
        | Some row =>
            set_users (<[user_id := mkUser (user_clan_name row)
                                           (user_points row + amount)
                                           (streak_days row) (Iso now)
                                           (join_date row) (weekly_cap row)]>
                         (users st4)) st4
        | None =>
            set_users (<[user_id := mkUser (Some clan) amount 0 (Iso now)
                                           (Iso now) 2000]>
                         (users st4)) st4
        end in
      let st6 :=
        set_logs (logs st5 ++ [mkLog user_id amount source now channel_id]) st5 in
      let '(d, m) :=
        defaultdict_get (mkDaily None 0) user_id (user_daily_points st6) in
      let st7 :=
        set_user_daily_points
          (<[user_id := mkDaily (Some (utc_date now)) (daily_points d + amount)]> m)
          st6 in
      let '(_, st8) := check_achievements now user_id st7 in
      (true, st8)
  end.

(** ** Directory *)

Definition get_user_clan (now : datetime) (user_id : Z) (guild : option Guild)
    (st : State) : option string * State :=
  let db_clan :=
    match users st !! user_id with
    | Some row => user_clan_name row
    | None => None
    end in
  match guild with
  | None => (db_clan, st)
  | Some g =>
      match get_member g user_id with
      | None => (db_clan, st)
      | Some member =>
          match find (λ role, bool_decide (is_Some (clans st !! role_name role)))
                     (member_roles member) with
          | None => (db_clan, st)
          | Some role =>
              if decide (db_clan ≠ Some (role_name role)) then
                match users st !! user_id with
                | Some row =>
                    (Some (role_name role),
                     set_users (<[user_id := mkUser (Some (role_name role))
                                     (user_points row) (streak_days row)
                                     (last_active row) (join_date row)
                                     (weekly_cap row)]> (users st)) st)
                | None =>
                    (Some (role_name role),
                     set_users (<[user_id := mkUser (Some (role_name role))
                                     0 0 Null (Iso now) 2000]> (users st)) st)
                end
              else (Some (role_name role), st)
          end
      end
  end.

(** ** Message handler *)

(** [str.isspace()] on code points below 256. *)
Definition is_space_char (a : Ascii.ascii) : bool :=
  let n := Z.of_nat (Ascii.nat_of_ascii a) in
  ((9 <=? n) && (n <=? 13)) || ((28 <=? n) && (n <=? 32))
  || (n =? 133) || (n =? 160).

Definition isspace (s : string) : bool :=
  negb (bool_decide (s = ""%string))
  && forallb is_space_char (String.list_ascii_of_string s).

Definition has_bonus_role (st : State) (author : Member) : bool :=
  match get_bonus_role st with
  | None => false
  | Some bonus_role =>
      str_truthy (Some bonus_role)
      && existsb (λ r, bool_decide (role_name r = bonus_role)) (member_roles author)
  end.

(** The amount of a message award: [base_amount] as [on_message] computes it. *)
Definition message_amount (has_bonus is_weekend : bool) (content : string) : Z :=
  let base_amount := if has_bonus then 5 else 1 in
  let base_amount :=
    if is_weekend then py_int (inject_Z base_amount * (3 # 2)) else base_amount in
  let base_amount :=
    if Nat.ltb 50 (String.length content) then base_amount + 1 else base_amount in
  base_amount.

(** The milestone announced after an award, if any. *)
Definition crossed_milestone (total_points amount : Z) : option Z :=
  find (λ milestone,
          Z.ltb (total_points - amount) milestone && Z.leb milestone total_points)
       milestones.

(** The [try] block of the handler: returns the amount awarded (when an
    award was made) and the milestone announced.  The [finally] clause,
    which hands every message to the command processor, is added by
    [on_message_event]. *)
Definition on_message (now : datetime) (message : Message) (st : State)
    : option (Z * option Z) * State :=
  let author := msg_author message in
  if member_bot author || negb (msg_type_default message) then (None, st) else
  let '(limited, st1) := is_rate_limited now (member_id author) st in
  if limited then (None, st1) else
  if Nat.ltb (String.length (msg_content message)) 3
     || isspace (msg_content message) then (None, st1) else
  let st2 :=
    set_last_message_time (<[member_id author := now]> (last_message_time st1)) st1 in
  let '(clan, st3) := get_user_clan now (member_id author) (msg_guild message) st2 in
  match clan, msg_guild message with
  | Some clan, Some guild =>
      if negb (str_truthy (Some clan)) then (None, st3) else
      match utils_get_role (guild_roles guild) clan,
            get_member guild (member_id author) with
      | Some clan_role, Some member =>
          if negb (role_in clan_role (member_roles member)) then (None, st3) else
          let has_bonus := has_bonus_role st3 author in
          let is_weekend := Z.leb 5 (weekday now) in
          let amount := message_amount has_bonus is_weekend (msg_content message) in
          let '(ok, st4) :=
            add_points_to_clan_and_user now (member_id author) clan amount
              "message" (Some (msg_channel_id message)) st3 in
          if ok then
            (Some (amount,
                   match users st4 !! member_id author with
                   | Some row => crossed_milestone (user_points row) amount
                   | None => None
                   end), st4)
          else (None, st4)
      | _, _ => (None, st3)
      end
  | _, _ => (None, st3)
  end.

(** ** Administrative commands *)

Inductive AddReply :=
  | AddNotPositive
  | AddTooLarge
  | AddNotInClan
  | AddCapExceeded
  | AddOk
  | AddFailed.

Definition addpoints (now : datetime) (guild : option Guild) (user : Member)
    (amount : Z) (channel_id : Z) (st : State) : AddReply * State :=
  if Z.leb amount 0 then (AddNotPositive, st) else
  if Z.ltb 10000 amount then (AddTooLarge, st) else
  let '(clan, st1) := get_user_clan now (member_id user) guild st in
  match clan with
  | Some clan =>
      if negb (str_truthy (Some clan)) then (AddNotInClan, st1) else
      let '(ok, st2) := can_add_to_clan now clan amount st1 in
      if negb ok then
        let '(_, st3) := get_clan_points now clan st2 in
        (AddCapExceeded, st3)
      else
        let '(ok, st3) :=
          add_points_to_clan_and_user now (member_id user) clan amount
            "admin" (Some channel_id) st2 in
        if ok then (AddOk, st3) else (AddFailed, st3)
  | None => (AddNotInClan, st1)
  end.

Inductive RemoveReply :=
  | RemoveNotPositive
  | RemoveTooLarge
  | RemoveNotInClan
  | RemoveNoPoints
  | RemoveInsufficient
  | RemoveOk
  | RemoveError.

(** [get_clan_points] as it answers inside [removepoints]: the caller has
    already updated the user's row and holds the write transaction open.
    The read, on a connection of its own, sees the committed clan row; the
    [UPDATE] of a rollover cannot take the write lock, the exception is
    caught by [get_clan_points] and [None] is returned.  Nothing is
    written. *)
Definition get_clan_points_locked (now : datetime) (clan : string) (st : State)
    : option Z :=
  match clans st !! clan with
  | None => None
  | Some data =>
      match last_week_start data with
      | Iso last_reset =>
          if Z.ltb last_reset (get_week_start now) then None
          else Some (clan_points data)
      | Null | Empty => Some (clan_points data)
      end
  end.

(** When the read answers [None] (no such clan, or a rollover that could
    not be written), [None - amount] raises, the [with] block rolls the
    update of the user's row back and the error reply is sent. *)
Definition removepoints (now : datetime) (guild : option Guild) (user : Member)
    (amount : Z) (channel_id : Z) (st : State) : RemoveReply * State :=
  if Z.leb amount 0 then (RemoveNotPositive, st) else
  if Z.ltb 10000 amount then (RemoveTooLarge, st) else
  let '(clan, st1) := get_user_clan now (member_id user) guild st in
  match clan with
  | Some clan =>
      if negb (str_truthy (Some clan)) then (RemoveNotInClan, st1) else
      match users st1 !! member_id user with
      | None => (RemoveNoPoints, st1)
      | Some row =>
          let current_user_points := user_points row in
          if Z.ltb current_user_points amount then (RemoveInsufficient, st1) else
          let new_user_points := current_user_points - amount in
          let st2 :=
            set_users (<[member_id user := mkUser (user_clan_name row)
                            new_user_points (streak_days row) (last_active row)
                            (join_date row) (weekly_cap row)]> (users st1)) st1 in
          match get_clan_points_locked now clan st2 with
          | None => (RemoveError, st1)
          | Some current_clan_points =>
              let new_clan_points := Z.max 0 (current_clan_points - amount) in
              let st4 :=
                set_clans (alter (λ c, mkClan new_clan_points (last_week_start c)
                                              (last_week_points c) (max_points c))
                                 clan (clans st2)) st2 in
              (RemoveOk,
               set_logs (logs st4 ++ [mkLog (member_id user) (- amount)
                                            "admin_removal" now (Some channel_id)])
                        st4)
          end
      end
  | None => (RemoveNotInClan, st1)
  end.

(** ** Shop *)

Inductive PurchaseReply :=
  | NoSuchItem
  | NotRegistered
  | NotEnoughPoints
  | Purchased (cost : Z).

Definition purchase (author_id : Z) (item_name : string) (st : State)
    : PurchaseReply * State :=
  match find (λ r, bool_decide (shop_name r = item_name)) (shop st) with
  | None => (NoSuchItem, st)
  | Some item =>
      let cost := shop_cost item in
      match users st !! author_id with
      | None => (NotRegistered, st)
      | Some row =>
          let user_points_ := user_points row in
          if Z.ltb user_points_ cost then (NotEnoughPoints, st) else
          let new_points := user_points_ - cost in
          (Purchased cost,
           set_users (<[author_id := mkUser (user_clan_name row) new_points
                           (streak_days row) (last_active row) (join_date row)
                           (weekly_cap row)]> (users st)) st)
      end
  end.

(** ** Channel multipliers *)

(** [REPLACE INTO channel_multipliers]; [false] is the range refusal. *)
Definition setchannelmultiplier (channel_id : Z) (name : string) (m : Q)
    (st : State) : bool * State :=
  if negb (Qle_bool float_0_1 m) || negb (Qle_bool m 5) then (false, st) else
  (true,
   set_channel_multipliers
     (<[channel_id := mkChannelMultiplier m name]> (channel_multipliers st)) st).

(** ** Sequences of awards *)

Record AwardCall := mkAwardCall {
  call_now : datetime;
  call_user_id : Z;
  call_clan : string;
  call_amount : Z;
  call_source : string;
  call_channel_id : option Z
}.

Definition award (st : State) (c : AwardCall) : State :=
  (add_points_to_clan_and_user (call_now c) (call_user_id c) (call_clan c)
     (call_amount c) (call_source c) (call_channel_id c) st).2.

Definition run_awards (calls : list AwardCall) (st : State) : State :=
  foldl award st calls.

(** ** The ledger *)

(** Sum of the logged amounts of one user. *)
Definition log_sum (user_id : Z) (l : list LogRow) : Z :=
  foldr (λ r acc, if decide (log_user_id r = user_id) then log_amount r + acc else acc)
        0 l.

(** Stored lifetime points; a user without a row has none. *)
Definition lifetime_points (user_id : Z) (st : State) : Z :=
  match users st !! user_id with
  | Some row => user_points row
  | None => 0
  end.

Definition ledger_ok (st : State) : Prop :=
  ∀ user_id, log_sum user_id (logs st) = lifetime_points user_id st.

(** ** Closed form of an accepted award *)

(** The state an accepted award produces from the state [st2] left by the
    two gates; [cur] is the clan's current points. *)
Definition apply_award (now : datetime) (user_id : Z) (clan : string)
    (amount : Z) (source : string) (channel_id : option Z) (cur : Z)
    (st2 : State) : State :=
  let st4 :=
    set_clans (alter (λ c, mkClan (cur + amount) (last_week_start c)
                                  (last_week_points c) (max_points c))
                     clan (clans st2)) st2 in
  let st5 :=
    match users st4 !! user_id with
    | Some row =>
        set_users (<[user_id := mkUser (user_clan_name row)
                                       (user_points row + amount)
                                       (streak_days row) (Iso now)
                                       (join_date row) (weekly_cap row)]>
                     (users st4)) st4
    | None =>
        set_users (<[user_id := mkUser (Some clan) amount 0 (Iso now)
                                       (Iso now) 2000]>
                     (users st4)) st4
    end in
  let st6 :=
    set_logs (logs st5 ++ [mkLog user_id amount source now channel_id]) st5 in
  let dm := defaultdict_get (mkDaily None 0) user_id (user_daily_points st6) in
  let st7 :=
    set_user_daily_points
      (<[user_id := mkDaily (Some (utc_date now)) (daily_points dm.1 + amount)]>
         dm.2) st6 in
  (check_achievements now user_id st7).2.

(** ** Sample data *)

Module Sample.

(** 2024-01-01 (day 19723) was a Monday, 2024-01-06 a Saturday. *)
Definition monday_noon : datetime := 19723 * US_PER_DAY + 12 * 3600 * US_PER_SECOND.
Definition wednesday_noon : datetime := monday_noon + 2 * US_PER_DAY.
Definition saturday_noon : datetime := monday_noon + 5 * US_PER_DAY.
Definition this_monday : datetime := 19723 * US_PER_DAY.

Definition wolves_role : Role := mkRole 10 "Wolves".
Definition vip_role : Role := mkRole 11 "VIP".

Definition alice : Member := mkMember 1 false [wolves_role; vip_role].
Definition bob : Member := mkMember 2 false [wolves_role].

Definition guild : Guild :=
  mkGuild [wolves_role; vip_role] (<[1 := alice]> (<[2 := bob]> ∅)).

(** A clan of the current week with no points yet. *)
Definition wolves : ClanRow := mkClan 0 (Iso this_monday) 0 20000.

Definition empty_state : State :=
  mkState ∅ ∅ [] ∅ [] [] ∅ ∅ ∅ ∅.

Definition base_state : State :=
  mkState (<["Wolves"%string := wolves]> ∅) ∅ [] (<["bonus_role"%string := "VIP"%string]> ∅)
          [] [] ∅ ∅ ∅ ∅.

(** 60 characters. *)
Definition long_text : string :=
  "The quick brown fox jumps over the lazy dog near the river!!"%string.

Definition long_message : Message :=
  mkMessage alice true long_text 7 (Some guild).

Definition short_message : Message :=
  mkMessage bob true "hello all"%string 7 (Some guild).


(** Bob holds 100 points, all logged, and the shop sells a sword for 30. *)
Definition shop_state : State :=
  mkState (<["Wolves"%string := mkClan 100 (Iso this_monday) 0 20000]> ∅)
          (<[2 := mkUser (Some "Wolves"%string) 100 0 (Iso this_monday)
                         (Iso this_monday) 2000]> ∅)
          [mkLog 2 100 "admin" this_monday (Some 7)]
          ∅ [] [mkShop 1 "Sword" 30] ∅ ∅ ∅ ∅.

(** Bob was awarded 300 points earlier today. *)
Definition budget_state : State :=
  mkState (<["Wolves"%string := mkClan 300 (Iso this_monday) 0 20000]> ∅)
          (<[2 := mkUser (Some "Wolves"%string) 300 0 (Iso this_monday)
                         (Iso this_monday) 2000]> ∅)
          [mkLog 2 300 "admin" this_monday (Some 7)]
          ∅ [] [] ∅ ∅ ∅
          (<[2 := mkDaily (Some (utc_date monday_noon)) 300]> ∅).

(** A clan 100 points below its maximum, and three awards on it. *)
Definition near_cap_state : State :=
  set_clans (<["Wolves"%string := mkClan 19900 (Iso this_monday) 0 20000]> ∅)
            base_state.

Definition sample_calls : list AwardCall :=
  [mkAwardCall monday_noon 1 "Wolves" 60 "message" (Some 7);
   mkAwardCall monday_noon 2 "Wolves" 60 "message" (Some 7);
   mkAwardCall wednesday_noon 2 "Wolves" 40 "admin" (Some 7)].

(** A seasonal event that doubles points, running through January 2024. *)
Definition event_state : State :=
  mkState (<["Wolves"%string := wolves]> ∅) ∅ []
          (<["bonus_role"%string := "VIP"%string]> ∅) [] [] ∅
          (<["Winter"%string := mkSeasonalEvent "2024-01-01" "2024-01-31" 2 1]> ∅)
          ∅ ∅.

End Sample.

(** * Further commands *)

From Stdlib Require Import Ascii.

Definition set_config (v : gmap string string) (st : State) : State :=
  mkState (clans st) (users st) (logs st) v (achievements st) (shop st)
          (channel_multipliers st) (seasonal_events st)
          (last_message_time st) (user_daily_points st).

Definition set_shop (v : list ShopRow) (st : State) : State :=
  mkState (clans st) (users st) (logs st) (config st) (achievements st) v
          (channel_multipliers st) (seasonal_events st)
          (last_message_time st) (user_daily_points st).

(** ** Clan names *)

(** [str.isalnum()] on one code point below 256. *)
Definition is_alnum_char (a : Ascii.ascii) : bool :=
  let n := Z.of_nat (Ascii.nat_of_ascii a) in
  ((48 <=? n) && (n <=? 57)) || ((65 <=? n) && (n <=? 90))
  || ((97 <=? n) && (n <=? 122))
  || (n =? 170) || (n =? 178) || (n =? 179) || (n =? 181) || (n =? 185)
  || (n =? 186) || ((188 <=? n) && (n <=? 190))
  || ((192 <=? n) && (n <=? 214)) || ((216 <=? n) && (n <=? 246))
  || ((248 <=? n) && (n <=? 255)).

(** [s.isalnum()]: every character is alphanumeric and there is at least one. *)
Definition isalnum (s : string) : bool :=
  negb (bool_decide (s = ""%string))
  && forallb is_alnum_char (String.list_ascii_of_string s).

(** [s.replace(c, '')] for a one-character [c]. *)
Fixpoint str_remove (c : Ascii.ascii) (s : string) : string :=
  match s with
  | EmptyString => EmptyString
  | String a s' =>
      if bool_decide (a = c) then str_remove c s' else String a (str_remove c s')
  end.

Inductive NameError :=
  | NameTooLong
  | NameBadCharacters.

(** [None] is the accepted name; the two errors stand for the two texts. *)
Definition validate_clan_name (name : string) : option NameError :=
  if Nat.ltb 50 (String.length name) then Some NameTooLong else
  if negb (isalnum (str_remove "_"%char (str_remove "-"%char (str_remove " "%char name))))
  then Some NameBadCharacters
  else None.

(** ** Clan creation and assignment *)

Inductive CreateReply :=
  | CreateInvalid (e : NameError)
  | CreateExists
  | CreateForbidden
  | CreateOk.

(** [role_created] is the outcome of [guild.create_role]: [false] when the
    platform answers [Forbidden].  The role itself lives on the platform. *)
Definition createclan (now : datetime) (clan_name : string) (role_created : bool)
    (st : State) : CreateReply * State :=
  match validate_clan_name clan_name with
  | Some e => (CreateInvalid e, st)
  | None =>
      match clans st !! clan_name with
      | Some _ => (CreateExists, st)
      | None =>
          if negb role_created then (CreateForbidden, st) else
          (CreateOk,
           set_clans (<[clan_name := mkClan 0 (Iso (get_week_start now)) 0 20000]>
                        (clans st)) st)
      end
  end.

(** SQLite's [LIKE]: [%] matches any run of characters, [_] any one
    character, ASCII letters match without regard to case. *)
Definition ascii_lower (a : Ascii.ascii) : Ascii.ascii :=
  let n := Ascii.nat_of_ascii a in
  if (Nat.leb 65 n && Nat.leb n 90)%bool then Ascii.ascii_of_nat (n + 32) else a.

Fixpoint like (pattern : list Ascii.ascii) (s : list Ascii.ascii) : bool :=
  match pattern with
  | [] => match s with [] => true | _ => false end
  | p :: pattern' =>
      if bool_decide (p = "%"%char) then
        (fix any_run (s : list Ascii.ascii) : bool :=
           like pattern' s
           || match s with
              | [] => false
              | _ :: s' => any_run s'
              end) s
      else
        match s with
        | [] => false
        | a :: s' =>
            (bool_decide (p = "_"%char)
             || bool_decide (ascii_lower p = ascii_lower a))
            && like pattern' s'
        end
  end.

Definition is_whitelist_key (key : string) : bool :=
  like (String.list_ascii_of_string "whitelist_role_%")
       (String.list_ascii_of_string key).

(** The values of the rows whose key is [LIKE 'whitelist_role_%']; the
    callers only test membership, so the order of the rows plays no part. *)
Definition get_whitelist_roles (st : State) : list string :=
  (map_to_list (filter (λ kv, is_whitelist_key kv.1 = true) (config st))).*2.

(** [administrator] is [user.guild_permissions.administrator]. *)
Definition is_user_whitelisted (administrator : bool) (user : Member)
    (st : State) : bool :=
  if administrator then true else
  let whitelist_roles := get_whitelist_roles st in
  match whitelist_roles with
  | [] => false
  | _ =>
      let user_role_names := role_name <$> member_roles user in
      existsb (λ role_name, bool_decide (role_name ∈ user_role_names))
              whitelist_roles
  end.

Inductive AssignReply :=
  | AssignNotAllowed
  | AssignNoSuchClan
  | AssignOk.

(** The database side of [assignclan]; taking and giving the roles happens
    on the platform and a refusal there does not stop the assignment. *)
Definition assignclan (now : datetime) (administrator : bool) (author : Member)
    (user : Member) (clan_name : string) (st : State) : AssignReply * State :=
  if negb (is_user_whitelisted administrator author st)
  then (AssignNotAllowed, st) else
  match clans st !! clan_name with
  | None => (AssignNoSuchClan, st)
  | Some _ =>
      let '(old_clan, st1) := get_user_clan now (member_id user) None st in
      match users st1 !! member_id user with
      | Some row =>
          (AssignOk,
           set_users (<[member_id user := mkUser (Some clan_name)
                            (user_points row) (streak_days row)
                            (last_active row) (join_date row)
                            (weekly_cap row)]> (users st1)) st1)
      | None =>
          (AssignOk,
           set_users (<[member_id user := mkUser (Some clan_name) 0 0 Null
                            (Iso now) 2000]> (users st1)) st1)
      end
  end.

(** ** Configuration commands *)

(** [false] is the range refusal; an unknown clan is answered like a known
    one, the [UPDATE] then touches no row. *)
Definition setweeklycap (clan : string) (cap : Z) (st : State) : bool * State :=
  if Z.ltb cap 100 || Z.ltb 20000 cap then (false, st) else
  (true,
   set_clans (alter (λ c, mkClan (clan_points c) (last_week_start c)
                                 (last_week_points c) cap)
                    clan (clans st)) st).

(** [REPLACE INTO config (key, value) VALUES ('bonus_role', role_name)] *)
Definition setbonusrole (role_name : string) (st : State) : State :=
  set_config (<["bonus_role"%string := role_name]> (config st)) st.

Inductive WhitelistReply :=
  | WhitelistNoSuchRole
  | WhitelistAlready
  | WhitelistAdded
  | WhitelistError
  | WhitelistRemoved
  | WhitelistNotListed.

(** The key of a new row: [f"whitelist_role_{int(time.time())}"]. *)
Definition whitelist_key (now : datetime) : string :=
  ("whitelist_role_" +:+ pretty (Z.quot now US_PER_SECOND))%string.

(** The [INSERT] fails on a key that is taken ([key] is the primary key). *)
Definition addwhitelistrole (now : datetime) (guild : Guild) (role_name : string)
    (st : State) : WhitelistReply * State :=
  match utils_get_role (guild_roles guild) role_name with
  | None => (WhitelistNoSuchRole, st)
  | Some _ =>
      if bool_decide (role_name ∈ get_whitelist_roles st)
      then (WhitelistAlready, st) else
      match config st !! whitelist_key now with
      | Some _ => (WhitelistError, st)
      | None =>
          (WhitelistAdded,
           set_config (<[whitelist_key now := role_name]> (config st)) st)
      end
  end.

(** [DELETE FROM config WHERE key LIKE 'whitelist_role_%' AND value=?] *)
Definition removewhitelistrole (role_name : string) (st : State)
    : WhitelistReply * State :=
  let doomed :=
    filter (λ kv, is_whitelist_key kv.1 = true ∧ kv.2 = role_name) (config st) in
  if bool_decide (doomed = ∅) then (WhitelistNotListed, st) else
  (WhitelistRemoved,
   set_config (filter (λ kv, ¬ (is_whitelist_key kv.1 = true ∧ kv.2 = role_name))
                      (config st)) st).

(** ** Shop catalogue *)

(** SQLite's INTEGER holds 64 signed bits. *)
Definition INT64_MIN : Z := - 2 ^ 63.
Definition INT64_MAX : Z := 2 ^ 63 - 1.

(** [INSERT INTO shop (name, cost)]: the id is one more than the largest.
    The command takes any Python integer; binding a cost beyond 64 bits
    raises [OverflowError], the reply is the error ([false]) and no row is
    added. *)
Definition additem (name : string) (cost : Z) (st : State) : bool * State :=
  if Z.ltb cost INT64_MIN || Z.ltb INT64_MAX cost then (false, st) else
  (true,
   set_shop (shop st ++ [mkShop (1 + foldr Z.max 0 (shop_id <$> shop st))
                                name cost])
            st).

(** ** Command sequences *)

Inductive Command :=
  | CmdMessage (now : datetime) (message : Message)
  | CmdMyClan (now : datetime) (user_id : Z) (guild : option Guild)
  | CmdAddPoints (now : datetime) (guild : option Guild) (user : Member)
                 (amount channel_id : Z)
  | CmdRemovePoints (now : datetime) (guild : option Guild) (user : Member)
                    (amount channel_id : Z)
  | CmdPurchase (author_id : Z) (item_name : string)
  | CmdAddItem (name : string) (cost : Z)
  | CmdCreateClan (now : datetime) (clan_name : string) (role_created : bool)
  | CmdAssignClan (now : datetime) (administrator : bool) (author user : Member)
                  (clan_name : string)
  | CmdSetWeeklyCap (clan : string) (cap : Z)
  | CmdSetBonusRole (role_name : string)
  | CmdSetChannelMultiplier (channel_id : Z) (name : string) (m : Q)
  | CmdAddWhitelistRole (now : datetime) (guild : Guild) (role_name : string)
  | CmdRemoveWhitelistRole (role_name : string).

Definition execute (st : State) (cmd : Command) : State :=
  match cmd with
  | CmdMessage now message => (on_message now message st).2
  | CmdMyClan now user_id guild => (get_user_clan now user_id guild st).2
  | CmdAddPoints now guild user amount channel_id =>
      (addpoints now guild user amount channel_id st).2
  | CmdRemovePoints now guild user amount channel_id =>
      (removepoints now guild user amount channel_id st).2
  | CmdPurchase author_id item_name => (purchase author_id item_name st).2
  | CmdAddItem name cost => (additem name cost st).2
  | CmdCreateClan now clan_name role_created =>
      (createclan now clan_name role_created st).2
  | CmdAssignClan now administrator author user clan_name =>
      (assignclan now administrator author user clan_name st).2
  | CmdSetWeeklyCap clan cap => (setweeklycap clan cap st).2
  | CmdSetBonusRole role_name => setbonusrole role_name st
  | CmdSetChannelMultiplier channel_id name m =>
      (setchannelmultiplier channel_id name m st).2
  | CmdAddWhitelistRole now guild role_name =>
      (addwhitelistrole now guild role_name st).2
  | CmdRemoveWhitelistRole role_name => (removewhitelistrole role_name st).2
  end.

Definition run_commands (cmds : list Command) (st : State) : State :=
  foldl execute st cmds.

Definition is_purchase (cmd : Command) : bool :=
  match cmd with
  | CmdPurchase _ _ => true
  | _ => false
  end.

(** The store of a fresh installation: every table and tracker empty. *)
Definition initial_state : State :=
  mkState ∅ ∅ [] ∅ [] [] ∅ ∅ ∅ ∅.

(** ** The message handler with its [finally] clause *)

(** The whole of the handler: the [try] block, then
    [bot.process_commands(message)], which runs whether the block awarded,
    returned early or failed.  The command processor is the library's
    dispatch to the commands of the bot; it is a parameter, so that what
    is proved holds for every command a message may carry. *)
Definition on_message_event
    (process_commands : datetime → Message → State → State)
    (now : datetime) (message : Message) (st : State)
    : option (Z * option Z) * State :=
  let '(r, st1) := on_message now message st in
  (r, process_commands now message st1).

(** ** Daily challenge *)

(** The table [daily_challenges]: day, then description and reward. *)
Definition setchallenge (now : datetime) (reward_points : Z)
    (challenge_description : string) (table : gmap Z (string * Z))
    : bool * gmap Z (string * Z) :=
  if Z.leb reward_points 0 || Z.ltb 1000 reward_points then (false, table) else
  (true, <[utc_date now := (challenge_description, reward_points)]> table).

(** [None] is the answer that no challenge is set for today. *)
Definition dailychallenge (now : datetime) (table : gmap Z (string * Z))
    : option (string * Z) :=
  table !! utc_date now.

(** ** Well-formed stores *)

(** No user holds a negative number of points. *)
Definition users_ok (st : State) : Prop :=
  map_Forall (λ _ row, 0 <= user_points row) (users st).

(** Every clan has a valid name, points that are not negative and a weekly
    maximum between 100 and 20000. *)
Definition clans_ok (st : State) : Prop :=
  map_Forall (λ name row,
                validate_clan_name name = None
                ∧ 0 <= clan_points row
                ∧ 100 <= max_points row <= 20000) (clans st).

(** The daily tracker of every user is between 0 and the daily maximum. *)
Definition daily_ok (st : State) : Prop :=
  map_Forall (λ _ e, 0 <= daily_points e <= MAX_DAILY_POINTS)
             (user_daily_points st).

Definition store_ok (st : State) : Prop :=
  users_ok st ∧ clans_ok st ∧ daily_ok st.

(** ** A sample session *)

Module Scenario.

(** A clan is created, Bob is assigned to it and earns, loses and is given
    points; the shop gets a sword and the clan a lower weekly maximum. *)
Definition commands : list Command :=
  [CmdCreateClan Sample.monday_noon "Wolves" true;
   CmdAssignClan Sample.monday_noon true Sample.alice Sample.bob "Wolves";
   CmdSetBonusRole "VIP";
   CmdMessage Sample.wednesday_noon Sample.short_message;
   CmdAddPoints Sample.wednesday_noon (Some Sample.guild) Sample.bob 120 7;
   CmdRemovePoints Sample.wednesday_noon (Some Sample.guild) Sample.bob 20 7;
   CmdAddItem "Sword" 30;
   CmdSetWeeklyCap "Wolves" 5000].

Definition final_state : State := run_commands commands initial_state.

(** A command processor that knows one command, the purchase of a sword. *)
Definition process_commands (now : datetime) (message : Message) (st : State)
    : State :=
  if bool_decide (msg_content message = "!purchase Sword"%string)
  then (purchase (member_id (msg_author message)) "Sword" st).2
  else st.

(** Bob holds 100 points in the shop's store and orders a sword. *)
Definition order : Message :=
  mkMessage Sample.bob true "!purchase Sword" 7 (Some Sample.guild).

End Scenario.

(** * Properties *)

(** ** Weekly cycle *)

Lemma get_clan_points_missing now clan st :
  clans st !! clan = None → get_clan_points now clan st = (None, st).
Proof. intros H. unfold get_clan_points. by rewrite H. Qed.

Lemma get_clan_points_current now clan st data t :
  clans st !! clan = Some data →
  last_week_start data = Iso t →
  get_week_start now <= t →
  get_clan_points now clan st = (Some (clan_points data), st).
Proof.
  intros Hc Hl Hle. unfold get_clan_points. rewrite Hc, Hl.
  destruct (Z.ltb_spec t (get_week_start now)); [lia | done].
Qed.

(** C10: a clan whose [last_week_start] is NULL or the empty string is
    never rolled over: whatever the instant of the read, the stored points
    are returned and the store, with [last_week_points] and
    [last_week_start], stays as it was. *)
Theorem get_clan_points_no_reset_marker now clan st data :
  clans st !! clan = Some data →
  last_week_start data = Null ∨ last_week_start data = Empty →
  get_clan_points now clan st = (Some (clan_points data), st).
Proof.
  intros Hc [Hl | Hl]; unfold get_clan_points; by rewrite Hc, Hl.
Qed.

Lemma get_clan_points_no_reset_marker_witness :
  get_clan_points Sample.saturday_noon "Old"
    (set_clans (<["Old"%string := mkClan 40 Empty 7 20000]> ∅) Sample.empty_state)
  = (Some 40,
     set_clans (<["Old"%string := mkClan 40 Empty 7 20000]> ∅) Sample.empty_state).
Proof.
  apply (get_clan_points_no_reset_marker Sample.saturday_noon "Old" _
           (mkClan 40 Empty 7 20000)).
  - reflexivity.
  - right. reflexivity.
Defined.




(** ** Message awards *)

Lemma is_rate_limited_config now user_id st :
  config (is_rate_limited now user_id st).2 = config st.
Proof.
  unfold is_rate_limited.
  by destruct (defaultdict_get 0 user_id (last_message_time st)).
Qed.

Lemma get_user_clan_config now user_id guild st :
  config (get_user_clan now user_id guild st).2 = config st.
Proof.
  unfold get_user_clan. repeat case_match; done.
Qed.

Lemma has_bonus_role_config st st' author :
  config st' = config st → has_bonus_role st' author = has_bonus_role st author.
Proof. intros H. unfold has_bonus_role, get_bonus_role. by rewrite H. Qed.

(** The amount of every award made by [on_message] is [message_amount] of
    the author's bonus role, the weekday and the text: nothing else enters. *)
Lemma on_message_amount now message st r st' :
  on_message now message st = (Some r, st') →
  r.1 = message_amount (has_bonus_role st (msg_author message))
                       (Z.leb 5 (weekday now)) (msg_content message).
Proof.
  unfold on_message.
  destruct (member_bot (msg_author message) || negb (msg_type_default message));
    [done|].
  pose proof (is_rate_limited_config now (member_id (msg_author message)) st) as Hc1.
  destruct (is_rate_limited now (member_id (msg_author message)) st)
    as [limited st1]; simpl in Hc1.
  destruct limited; [done|].
  destruct (_ || _); [done|].
  match goal with
  | |- context [get_user_clan ?n ?u ?g ?s] =>
      pose proof (get_user_clan_config n u g s) as Hc2;
      destruct (get_user_clan n u g s) as [clan st3]
  end.
  simpl in Hc2.
  destruct clan as [clan|]; [|done].
  destruct (msg_guild message) as [g|]; [|done].
  destruct (negb (str_truthy (Some clan))); [done|].
  destruct (utils_get_role (guild_roles g) clan) as [clan_role|]; [|done].
  destruct (get_member g (member_id (msg_author message))) as [member|]; [|done].
  destruct (negb (role_in clan_role (member_roles member))); [done|].
  destruct (add_points_to_clan_and_user _ _ _ _ _ _ _) as [ok st4].
  destruct ok; [|done].
  intros [= <- _]. simpl.
  rewrite (has_bonus_role_config st st3); [done|].
  by rewrite Hc2.
Qed.

(** C1 (amended): for a message award where the author holds the bonus role
    (base 5), the instant falls on a Saturday or Sunday (UTC) and the text
    is longer than 50 characters, the awarded amount is 8: [int(5 * 1.5)]
    truncates 7.5 to 7, and the length bonus adds 1. *)
Theorem on_message_bonus_weekend_long now message st r st' :
  on_message now message st = (Some r, st') →
  has_bonus_role st (msg_author message) = true →
  5 <= weekday now →
  (50 < String.length (msg_content message))%nat →
  r.1 = 8.
Proof.
  intros Hrun Hbonus Hweekend Hlong.
  rewrite (on_message_amount _ _ _ _ _ Hrun), Hbonus.
  unfold message_amount.
  destruct (Z.leb_spec 5 (weekday now)); [|lia].
  destruct (Nat.ltb_spec 50 (String.length (msg_content message))); [|lia].
  reflexivity.
Qed.

Lemma pair_eta {A B} (p : A * B) (a : A) : p.1 = a → p = (a, p.2).
Proof. destruct p; simpl; by intros ->. Qed.

Lemma on_message_bonus_weekend_long_run :
  (on_message Sample.saturday_noon Sample.long_message Sample.base_state).1
  = Some (8, None).
Proof. vm_compute. reflexivity. Qed.

Lemma on_message_bonus_weekend_long_witness :
  ∃ r st',
    on_message Sample.saturday_noon Sample.long_message Sample.base_state
    = (Some r, st') ∧ r.1 = 8.
Proof.
  exists (8, None),
    (on_message Sample.saturday_noon Sample.long_message Sample.base_state).2.
  split; [apply pair_eta, on_message_bonus_weekend_long_run|].
  apply (on_message_bonus_weekend_long Sample.saturday_noon Sample.long_message
           Sample.base_state (8, None)
           (on_message Sample.saturday_noon Sample.long_message
              Sample.base_state).2).
  - apply pair_eta, on_message_bonus_weekend_long_run.
  - reflexivity.
  - vm_compute. discriminate.
  - vm_compute. lia.
Defined.

(** C1 as stated fails: the award of a bonus-role holder on a Saturday for a
    60-character message is not 9. *)
Lemma on_message_bonus_weekend_long_not_9 :
  ¬ (∀ now message st r st',
       on_message now message st = (Some r, st') →
       has_bonus_role st (msg_author message) = true →
       5 <= weekday now →
       (50 < String.length (msg_content message))%nat →
       r.1 = 9).
Proof.
  intros H.
  specialize (H Sample.saturday_noon Sample.long_message Sample.base_state
                (8, None)
                (on_message Sample.saturday_noon Sample.long_message
                   Sample.base_state).2
                (pair_eta _ _ on_message_bonus_weekend_long_run) eq_refl).
  assert (Hw : 5 <= weekday Sample.saturday_noon) by (vm_compute; discriminate).
  assert (Hl : (50 < String.length (msg_content Sample.long_message))%nat)
    by (vm_compute; lia).
  specialize (H Hw Hl). discriminate H.
Qed.

(** ** Reads of the clan table, in closed form *)

Lemma set_clans_id st : set_clans (clans st) st = st.
Proof. by destruct st. Qed.

Lemma get_clan_points_row now clan st data :
  clans st !! clan = Some data →
  get_clan_points now clan st
  = (Some (clan_points (current_week_row now data)),
     set_clans (<[clan := current_week_row now data]> (clans st)) st).
Proof.
  intros Hc. unfold get_clan_points, current_week_row. rewrite Hc.
  destruct (last_week_start data) as [| |t];
    try (rewrite insert_id by done; by rewrite set_clans_id).
  destruct (Z.ltb t (get_week_start now)); [done|].
  rewrite insert_id by done. by rewrite set_clans_id.
Qed.

Lemma current_week_row_max now data :
  max_points (current_week_row now data) = max_points data.
Proof. unfold current_week_row. repeat case_match; done. Qed.

Lemma current_week_row_idem now data :
  current_week_row now (current_week_row now data) = current_week_row now data.
Proof.
  unfold current_week_row.
  destruct (last_week_start data) as [| |t] eqn:Hl; rewrite ?Hl; try done.
  destruct (Z.ltb_spec t (get_week_start now)); simpl.
  - by rewrite Z.ltb_irrefl.
  - rewrite Hl. destruct (Z.ltb_spec t (get_week_start now)); [lia|done].
Qed.

Lemma can_add_to_clan_missing now clan amount st :
  clans st !! clan = None → can_add_to_clan now clan amount st = (false, st).
Proof.
  intros Hc. unfold can_add_to_clan.
  rewrite get_clan_points_missing by done. by rewrite Hc.
Qed.

Lemma can_add_to_clan_row now clan amount st data :
  clans st !! clan = Some data →
  can_add_to_clan now clan amount st
  = (Z.leb (clan_points (current_week_row now data) + amount) (max_points data),
     set_clans (<[clan := current_week_row now data]> (clans st)) st).
Proof.
  intros Hc. unfold can_add_to_clan.
  rewrite (get_clan_points_row _ _ _ _ Hc). simpl.
  rewrite lookup_insert_eq. by rewrite current_week_row_max.
Qed.

(** A second read at the same instant returns the same points and writes
    nothing, whatever happened to the other tables in between. *)
Lemma get_clan_points_again now clan st st2 data :
  clans st !! clan = Some data →
  clans st2 = <[clan := current_week_row now data]> (clans st) →
  get_clan_points now clan st2
  = (Some (clan_points (current_week_row now data)), st2).
Proof.
  intros Hc H2.
  rewrite (get_clan_points_row now clan st2 (current_week_row now data))
    by (rewrite H2; apply lookup_insert_eq).
  rewrite current_week_row_idem. f_equal.
  rewrite H2, insert_insert_eq, <- H2. apply set_clans_id.
Qed.

(** ** The daily budget, in closed form *)



(** In every case the check leaves an entry of today for the user and
    compares that entry's points. *)
Lemma check_daily_limit_entry now user_id amount st :
  ∃ e, daily_date e = Some (utc_date now)
       ∧ (daily_points e = 0
          ∨ user_daily_points st !! user_id = Some e)
       ∧ check_daily_limit now user_id amount st
         = (Z.leb (daily_points e + amount) MAX_DAILY_POINTS,
            set_user_daily_points (<[user_id := e]> (user_daily_points st)) st).
Proof.
  unfold check_daily_limit, defaultdict_get.
  destruct (user_daily_points st !! user_id) as [e|] eqn:He.
  - destruct (decide (daily_date e ≠ Some (utc_date now))) as [Hne|Heq].
    + exists (mkDaily (Some (utc_date now)) 0). simpl. auto.
    + exists e. split; [|split]; auto.
      destruct (decide (daily_date e = Some (utc_date now))); [done|].
      by destruct Heq.
  - exists (mkDaily (Some (utc_date now)) 0). simpl.
    rewrite insert_insert_eq. auto.
Qed.

Lemma check_daily_limit_tables now user_id amount st :
  let st' := (check_daily_limit now user_id amount st).2 in
  clans st' = clans st ∧ users st' = users st ∧ logs st' = logs st
  ∧ achievements st' = achievements st.
Proof.
  destruct (check_daily_limit_entry now user_id amount st) as (e & _ & _ & ->).
  done.
Qed.

(** ** The award routine, in closed form *)

Lemma add_points_missing_clan now user_id clan amount source channel_id st :
  clans st !! clan = None →
  add_points_to_clan_and_user now user_id clan amount source channel_id st
  = (false, st).
Proof.
  intros Hc. unfold add_points_to_clan_and_user.
  by rewrite can_add_to_clan_missing.
Qed.

Lemma add_points_over_cap now user_id clan amount source channel_id st data :
  clans st !! clan = Some data →
  max_points data < clan_points (current_week_row now data) + amount →
  add_points_to_clan_and_user now user_id clan amount source channel_id st
  = (false, set_clans (<[clan := current_week_row now data]> (clans st)) st).
Proof.
  intros Hc Hlt. unfold add_points_to_clan_and_user.
  rewrite (can_add_to_clan_row _ _ _ _ _ Hc).
  destruct (Z.leb_spec (clan_points (current_week_row now data) + amount)
              (max_points data)); [lia|done].
Qed.

Lemma add_points_over_budget now user_id clan amount source channel_id st data :
  clans st !! clan = Some data →
  clan_points (current_week_row now data) + amount <= max_points data →
  let st1 := set_clans (<[clan := current_week_row now data]> (clans st)) st in
  (check_daily_limit now user_id amount st1).1 = false →
  add_points_to_clan_and_user now user_id clan amount source channel_id st
  = (false, (check_daily_limit now user_id amount st1).2).
Proof.
  intros Hc Hle st1 Hd. unfold add_points_to_clan_and_user.
  rewrite (can_add_to_clan_row _ _ _ _ _ Hc).
  destruct (Z.leb_spec (clan_points (current_week_row now data) + amount)
              (max_points data)); [|lia].
  simpl. fold st1.
  destruct (check_daily_limit now user_id amount st1) as [ok st2].
  simpl in Hd. by subst ok.
Qed.

Lemma add_points_accepted now user_id clan amount source channel_id st data :
  clans st !! clan = Some data →
  clan_points (current_week_row now data) + amount <= max_points data →
  let st1 := set_clans (<[clan := current_week_row now data]> (clans st)) st in
  (check_daily_limit now user_id amount st1).1 = true →
  add_points_to_clan_and_user now user_id clan amount source channel_id st
  = (true,
     apply_award now user_id clan amount source channel_id
       (clan_points (current_week_row now data))
       (check_daily_limit now user_id amount st1).2).
Proof.
  intros Hc Hle st1 Hd. unfold add_points_to_clan_and_user.
  rewrite (can_add_to_clan_row _ _ _ _ _ Hc).
  destruct (Z.leb_spec (clan_points (current_week_row now data) + amount)
              (max_points data)); [|lia].
  simpl. fold st1.
  pose proof (check_daily_limit_tables now user_id amount st1) as (Hcl & _).
  destruct (check_daily_limit now user_id amount st1) as [ok st2].
  simpl in Hd, Hcl. subst ok. simpl.
  rewrite (get_clan_points_again now clan st st2 data Hc) by done.
  unfold apply_award.
  destruct (defaultdict_get _ _ _) as [d m]. simpl.
  by destruct (check_achievements _ _ _).
Qed.

Lemma check_achievements_tables now user_id st :
  let st' := (check_achievements now user_id st).2 in
  clans st' = clans st ∧ users st' = users st ∧ logs st' = logs st
  ∧ user_daily_points st' = user_daily_points st.
Proof.
  unfold check_achievements. by destruct (users st !! user_id).
Qed.

Lemma apply_award_daily now user_id clan amount source channel_id cur st2 e :
  user_daily_points st2 !! user_id = Some e →
  user_daily_points
    (apply_award now user_id clan amount source channel_id cur st2)
  = <[user_id := mkDaily (Some (utc_date now)) (daily_points e + amount)]>
      (user_daily_points st2).
Proof.
  intros He. unfold apply_award.
  match goal with
  | |- context [check_achievements ?n ?u ?s] =>
      destruct (check_achievements_tables n u s) as (_ & _ & _ & ->)
  end.
  simpl. destruct (users st2 !! user_id); simpl;
    unfold defaultdict_get; by rewrite He.
Qed.

Lemma apply_award_clans now user_id clan amount source channel_id cur st2 :
  clans (apply_award now user_id clan amount source channel_id cur st2)
  = alter (λ c, mkClan (cur + amount) (last_week_start c)
                       (last_week_points c) (max_points c))
          clan (clans st2).
Proof.
  unfold apply_award.
  match goal with
  | |- context [check_achievements ?n ?u ?s] =>
      destruct (check_achievements_tables n u s) as (-> & _)
  end.
  simpl. by destruct (users st2 !! user_id).
Qed.

Lemma apply_award_users now user_id clan amount source channel_id cur st2 :
  ∃ row',
    users (apply_award now user_id clan amount source channel_id cur st2)
    = <[user_id := row']> (users st2)
    ∧ user_points row' = lifetime_points user_id st2 + amount.
Proof.
  unfold apply_award.
  match goal with
  | |- context [check_achievements ?n ?u ?s] =>
      destruct (check_achievements_tables n u s) as (_ & -> & _)
  end.
  unfold lifetime_points. simpl.
  destruct (users st2 !! user_id); simpl; eexists; split; try done; simpl; lia.
Qed.

(** ** Daily budget *)




(** ** Clan cap *)

Lemma current_week_row_cap now data :
  clan_points data <= max_points data →
  0 <= max_points data →
  clan_points (current_week_row now data) <= max_points data.
Proof.
  intros Hle Hpos. unfold current_week_row. repeat case_match; simpl; lia.
Qed.

(** The cap of a clan, as a property of the store: the clan has a row, its
    configured maximum is [M] and its points do not exceed it. *)
Lemma award_keeps_cap st c clan M :
  0 <= M →
  (∃ data, clans st !! clan = Some data ∧ max_points data = M
           ∧ clan_points data <= M) →
  ∃ data, clans (award st c) !! clan = Some data ∧ max_points data = M
          ∧ clan_points data <= M.
Proof.
  intros HM (data & Hc & Hmax & Hle). unfold award.
  destruct c as [now user_id cl amount source channel_id]. simpl.
  destruct (clans st !! cl) as [d|] eqn:Hcl;
    [|rewrite add_points_missing_clan by done; eauto].
  assert (Hroll : ∃ data',
            <[cl := current_week_row now d]> (clans st) !! clan = Some data'
            ∧ max_points data' = M ∧ clan_points data' <= M).
  { destruct (decide (cl = clan)) as [->|Hne].
    - rewrite lookup_insert_eq. assert (d = data) as -> by congruence.
      exists (current_week_row now data).
      rewrite current_week_row_max.
      split; [done|]. split; [done|]. subst M.
      apply current_week_row_cap; lia.
    - rewrite lookup_insert_ne by done. eauto. }
  destruct (Z.le_gt_cases (clan_points (current_week_row now d) + amount)
              (max_points d)) as [Hfit|Hover];
    [|by rewrite (add_points_over_cap _ _ _ _ _ _ _ _ Hcl Hover)].
  pose proof (check_daily_limit_tables now user_id amount
                (set_clans (<[cl := current_week_row now d]> (clans st)) st))
    as (Hclans & _).
  simpl in Hclans.
  destruct (check_daily_limit now user_id amount
              (set_clans (<[cl := current_week_row now d]> (clans st)) st)).1
    eqn:Hd.
  - rewrite (add_points_accepted _ _ _ _ _ _ _ _ Hcl Hfit Hd). simpl.
    rewrite apply_award_clans, Hclans.
    destruct (decide (cl = clan)) as [->|Hne].
    + rewrite lookup_alter_eq, lookup_insert_eq. simpl.
      assert (d = data) as -> by congruence.
      eexists. split; [done|]. simpl. rewrite current_week_row_max. lia.
    + rewrite lookup_alter_ne by done. exact Hroll.
  - rewrite (add_points_over_budget _ _ _ _ _ _ _ _ Hcl Hfit Hd). simpl.
    by rewrite Hclans.
Qed.

Lemma run_awards_keeps_cap calls st clan M :
  0 <= M →
  (∃ data, clans st !! clan = Some data ∧ max_points data = M
           ∧ clan_points data <= M) →
  ∃ data, clans (run_awards calls st) !! clan = Some data ∧ max_points data = M
          ∧ clan_points data <= M.
Proof.
  intros HM. revert st. unfold run_awards.
  induction calls as [|c calls IH]; intros st Hst; [done|].
  simpl. apply IH. by apply award_keeps_cap.
Qed.

(** C6: for a clan whose stored points start at or below its configured
    weekly maximum (a maximum that is not negative), after every prefix of
    every sequence of award calls, on this clan or any other, the stored
    points are still at or below the same maximum. *)
Theorem cap_invariant calls n st clan data :
  clans st !! clan = Some data →
  clan_points data <= max_points data →
  0 <= max_points data →
  ∃ data', clans (run_awards (take n calls) st) !! clan = Some data'
           ∧ max_points data' = max_points data
           ∧ clan_points data' <= max_points data'.
Proof.
  intros Hc Hle Hpos.
  destruct (run_awards_keeps_cap (take n calls) st clan (max_points data) Hpos)
    as (data' & H1 & H2 & H3); [eauto|].
  exists data'. rewrite H2. auto.
Qed.

Lemma cap_invariant_witness :
  ∃ data',
    clans (run_awards (take 2 Sample.sample_calls) Sample.near_cap_state)
      !! "Wolves"%string = Some data'
    ∧ max_points data' = 20000
    ∧ clan_points data' <= max_points data'.
Proof.
  apply (cap_invariant Sample.sample_calls 2 Sample.near_cap_state "Wolves"
           (mkClan 19900 (Iso Sample.this_monday) 0 20000)).
  - reflexivity.
  - simpl. lia.
  - simpl. lia.
Defined.

Lemma sample_calls_run :
  clan_points <$>
    (clans (run_awards Sample.sample_calls Sample.near_cap_state)
       !! "Wolves"%string) = Some 20000.
Proof. vm_compute. reflexivity. Qed.

(** ** Administrative addition and the daily budget *)

Lemma get_user_clan_tables now user_id guild st :
  let st' := (get_user_clan now user_id guild st).2 in
  clans st' = clans st ∧ logs st' = logs st
  ∧ user_daily_points st' = user_daily_points st
  ∧ achievements st' = achievements st.
Proof.
  unfold get_user_clan. repeat case_match; done.
Qed.

Lemma can_add_to_clan_daily now clan amount st :
  user_daily_points (can_add_to_clan now clan amount st).2
  = user_daily_points st.
Proof.
  destruct (clans st !! clan) as [data|] eqn:Hc.
  - by rewrite (can_add_to_clan_row _ _ _ _ _ Hc).
  - by rewrite can_add_to_clan_missing.
Qed.

(** No award of more than 500 points is ever accepted: the daily gate is
    part of the award routine whatever the source of the award. *)
Lemma add_points_above_daily_cap now user_id clan amount source channel_id st :
  MAX_DAILY_POINTS < amount →
  (∀ e, user_daily_points st !! user_id = Some e → 0 <= daily_points e) →
  (add_points_to_clan_and_user now user_id clan amount source channel_id st).1
  = false.
Proof.
  intros Hbig Hnonneg.
  destruct (clans st !! clan) as [data|] eqn:Hc;
    [|by rewrite add_points_missing_clan].
  destruct (Z.le_gt_cases (clan_points (current_week_row now data) + amount)
              (max_points data)) as [Hfit|Hover];
    [|by rewrite (add_points_over_cap _ _ _ _ _ _ _ _ Hc Hover)].
  rewrite (add_points_over_budget _ _ _ _ _ _ _ _ Hc Hfit); [done|].
  destruct (check_daily_limit_entry now user_id amount
              (set_clans (<[clan := current_week_row now data]> (clans st)) st))
    as (e & _ & He & ->).
  simpl. apply Z.leb_gt.
  destruct He as [He|He]; [lia|].
  simpl in He. specialize (Hnonneg e He). lia.
Qed.

(** The admin command accepts amounts up to 10000 at its own guard, yet
    every amount above 500 is turned down by the award routine. *)
Lemma addpoints_above_daily_cap now guild user amount channel_id st :
  MAX_DAILY_POINTS < amount →
  (∀ e, user_daily_points st !! member_id user = Some e → 0 <= daily_points e) →
  (addpoints now guild user amount channel_id st).1 ≠ AddOk.
Proof.
  intros Hbig Hnonneg. unfold addpoints.
  destruct (Z.leb amount 0); [done|].
  destruct (Z.ltb 10000 amount); [done|].
  pose proof (get_user_clan_tables now (member_id user) guild st)
    as (_ & _ & Hudp & _).
  destruct (get_user_clan now (member_id user) guild st) as [clan st1].
  simpl in Hudp.
  destruct clan as [clan|]; [|done].
  destruct (negb (str_truthy (Some clan))); [done|].
  pose proof (can_add_to_clan_daily now clan amount st1) as Hudp2.
  destruct (can_add_to_clan now clan amount st1) as [ok st2].
  simpl in Hudp2.
  destruct ok; simpl; [|by destruct (get_clan_points now clan st2)].
  pose proof (add_points_above_daily_cap now (member_id user) clan amount
                "admin" (Some channel_id) st2 Hbig) as Hrefused.
  destruct (add_points_to_clan_and_user _ _ _ _ _ _ _) as [ok st3].
  simpl in Hrefused. rewrite Hrefused; [done|].
  intros e He. apply Hnonneg. by rewrite <- Hudp, <- Hudp2.
Qed.

(** C4, at the failing input: Bob has been awarded 300 points today and his
    clan stands at 300 of 20000; an administrator adds 300.  The command
    answers that the addition failed and Bob's points, the clan's points
    and the log stay as they were. *)
Theorem addpoints_stopped_by_daily_budget :
  let r := addpoints Sample.monday_noon (Some Sample.guild) Sample.bob 300 7
             Sample.budget_state in
  r.1 = AddFailed
  ∧ (can_add_to_clan Sample.monday_noon "Wolves" 300 Sample.budget_state).1 = true
  ∧ users r.2 = users Sample.budget_state
  ∧ clans r.2 = clans Sample.budget_state
  ∧ logs r.2 = logs Sample.budget_state.
Proof. vm_compute. repeat split. Qed.

(** ** The ledger: logged amounts against stored points *)

Lemma log_sum_app user_id l r :
  log_sum user_id (l ++ [r])
  = log_sum user_id l
    + (if decide (log_user_id r = user_id) then log_amount r else 0).
Proof.
  induction l as [|x l IH]; simpl.
  - destruct (decide (log_user_id r = user_id)); lia.
  - rewrite IH. destruct (decide (log_user_id x = user_id)); lia.
Qed.

Lemma ledger_ok_tables st st' :
  users st' = users st → logs st' = logs st → ledger_ok st → ledger_ok st'.
Proof.
  intros Hu Hl H user_id. specialize (H user_id).
  unfold lifetime_points in *. by rewrite Hu, Hl.
Qed.

(** Points moved by [delta] for one user together with a log row of
    [delta] keep the ledger balanced. *)
Lemma ledger_ok_step st st' user_id delta row' source now channel_id :
  ledger_ok st →
  users st' = <[user_id := row']> (users st) →
  user_points row' = lifetime_points user_id st + delta →
  logs st' = logs st ++ [mkLog user_id delta source now channel_id] →
  ledger_ok st'.
Proof.
  intros H Hu Hp Hl u. specialize (H u).
  rewrite Hl, log_sum_app. simpl. unfold lifetime_points in *. rewrite Hu.
  destruct (decide (user_id = u)) as [->|Hne].
  - rewrite lookup_insert_eq. lia.
  - rewrite lookup_insert_ne by done. lia.
Qed.

Lemma get_user_clan_lifetime now user_id guild st u :
  lifetime_points u (get_user_clan now user_id guild st).2
  = lifetime_points u st.
Proof.
  unfold get_user_clan, lifetime_points.
  repeat case_match; simplify_eq/=; try done;
    (destruct (decide (user_id = u)) as [->|Hne];
     [rewrite lookup_insert_eq in *; by simplify_eq/=
     |rewrite lookup_insert_ne in * by done; by simplify_eq/=]).
Qed.

Lemma get_user_clan_ledger now user_id guild st :
  ledger_ok st → ledger_ok (get_user_clan now user_id guild st).2.
Proof.
  intros H u. rewrite get_user_clan_lifetime.
  destruct (get_user_clan_tables now user_id guild st) as (_ & -> & _).
  apply H.
Qed.

Lemma apply_award_logs now user_id clan amount source channel_id cur st2 :
  logs (apply_award now user_id clan amount source channel_id cur st2)
  = logs st2 ++ [mkLog user_id amount source now channel_id].
Proof.
  unfold apply_award.
  match goal with
  | |- context [check_achievements ?n ?u ?s] =>
      destruct (check_achievements_tables n u s) as (_ & _ & -> & _)
  end.
  simpl. by destruct (users st2 !! user_id).
Qed.

(** Every award, accepted or refused, keeps the ledger balanced. *)
Lemma add_points_ledger now user_id clan amount source channel_id st :
  ledger_ok st →
  ledger_ok
    (add_points_to_clan_and_user now user_id clan amount source channel_id st).2.
Proof.
  intros H.
  destruct (clans st !! clan) as [data|] eqn:Hc;
    [|by rewrite add_points_missing_clan].
  destruct (Z.le_gt_cases (clan_points (current_week_row now data) + amount)
              (max_points data)) as [Hfit|Hover];
    [|rewrite (add_points_over_cap _ _ _ _ _ _ _ _ Hc Hover);
      by apply (ledger_ok_tables st)].
  pose proof (check_daily_limit_tables now user_id amount
                (set_clans (<[clan := current_week_row now data]> (clans st)) st))
    as (_ & Hu & Hl & _).
  simpl in Hu, Hl.
  destruct (check_daily_limit now user_id amount
              (set_clans (<[clan := current_week_row now data]> (clans st)) st)).1
    eqn:Hd.
  - rewrite (add_points_accepted _ _ _ _ _ _ _ _ Hc Hfit Hd). simpl.
    match goal with
    | |- ledger_ok (apply_award ?n ?u ?c ?a ?s ?ch ?cur ?s2) =>
        destruct (apply_award_users n u c a s ch cur s2) as (row' & Hu' & Hp');
        pose proof (apply_award_logs n u c a s ch cur s2) as Hl'
    end.
    eapply (ledger_ok_step st); [done| | |].
    + rewrite Hu'. by rewrite Hu.
    + rewrite Hp'. unfold lifetime_points. by rewrite Hu.
    + rewrite Hl'. by rewrite Hl.
  - rewrite (add_points_over_budget _ _ _ _ _ _ _ _ Hc Hfit Hd).
    by apply (ledger_ok_tables st).
Qed.

Lemma get_clan_points_tables now clan st :
  let st' := (get_clan_points now clan st).2 in
  users st' = users st ∧ logs st' = logs st
  ∧ user_daily_points st' = user_daily_points st.
Proof.
  unfold get_clan_points. repeat case_match; done.
Qed.

Lemma can_add_to_clan_tables now clan amount st :
  let st' := (can_add_to_clan now clan amount st).2 in
  users st' = users st ∧ logs st' = logs st.
Proof.
  destruct (clans st !! clan) as [data|] eqn:Hc.
  - by rewrite (can_add_to_clan_row _ _ _ _ _ Hc).
  - by rewrite can_add_to_clan_missing.
Qed.

(** The admin addition keeps the ledger balanced. *)
Lemma addpoints_ledger now guild user amount channel_id st :
  ledger_ok st → ledger_ok (addpoints now guild user amount channel_id st).2.
Proof.
  intros H. unfold addpoints.
  destruct (Z.leb amount 0); [done|].
  destruct (Z.ltb 10000 amount); [done|].
  pose proof (get_user_clan_ledger now (member_id user) guild st H) as H1.
  destruct (get_user_clan now (member_id user) guild st) as [clan st1].
  simpl in H1.
  destruct clan as [clan|]; [|done].
  destruct (negb (str_truthy (Some clan))); [done|].
  pose proof (can_add_to_clan_tables now clan amount st1) as (Hu & Hl).
  destruct (can_add_to_clan now clan amount st1) as [ok st2].
  simpl in Hu, Hl.
  assert (H2 : ledger_ok st2) by by apply (ledger_ok_tables st1).
  destruct ok; simpl.
  - pose proof (add_points_ledger now (member_id user) clan amount "admin"
                  (Some channel_id) st2 H2) as H3.
    destruct (add_points_to_clan_and_user _ _ _ _ _ _ _) as [ok st3].
    by destruct ok.
  - pose proof (get_clan_points_tables now clan st2) as (Hu3 & Hl3 & _).
    destruct (get_clan_points now clan st2) as [cur st3].
    by apply (ledger_ok_tables st2).
Qed.

(** The admin removal keeps the ledger balanced: it logs what it takes. *)
Lemma removepoints_ledger now guild user amount channel_id st :
  ledger_ok st → ledger_ok (removepoints now guild user amount channel_id st).2.
Proof.
  intros H. unfold removepoints.
  destruct (Z.leb amount 0); [done|].
  destruct (Z.ltb 10000 amount); [done|].
  pose proof (get_user_clan_ledger now (member_id user) guild st H) as H1.
  destruct (get_user_clan now (member_id user) guild st) as [clan st1].
  simpl in H1.
  destruct clan as [clan|]; [|done].
  destruct (negb (str_truthy (Some clan))); [done|].
  destruct (users st1 !! member_id user) as [row|] eqn:Hrow; [|done].
  destruct (Z.ltb (user_points row) amount); [done|].
  destruct (get_clan_points_locked now clan _) as [cur|]; [|done]. simpl.
  eapply (ledger_ok_step st1 _ (member_id user) (- amount)); [done| | |].
  - simpl. done.
  - simpl. unfold lifetime_points. rewrite Hrow. lia.
  - simpl. done.
Qed.

(** Message awards keep the ledger balanced. *)
Lemma on_message_ledger now message st :
  ledger_ok st → ledger_ok (on_message now message st).2.
Proof.
  intros H. unfold on_message.
  destruct (_ || _); [done|].
  unfold is_rate_limited. destruct (defaultdict_get _ _ _) as [last m]. simpl.
  destruct (Z.ltb (now - last) _); [by apply (ledger_ok_tables st)|].
  destruct (_ || _); [by apply (ledger_ok_tables st)|].
  match goal with
  | |- context [get_user_clan ?n ?u ?g ?s] =>
      assert (H1 : ledger_ok s) by (by apply (ledger_ok_tables st));
      pose proof (get_user_clan_ledger n u g s H1) as H2;
      destruct (get_user_clan n u g s) as [clan st3]
  end.
  simpl in H2.
  destruct clan as [clan|]; [|done].
  destruct (msg_guild message) as [g|]; [|done].
  destruct (negb (negb _)); [done|].
  destruct (utils_get_role (guild_roles g) clan) as [clan_role|]; [|done].
  destruct (get_member g (member_id (msg_author message))) as [member|]; [|done].
  destruct (negb (role_in clan_role (member_roles member))); [done|].
  match goal with
  | |- context [add_points_to_clan_and_user ?n ?u ?c ?a ?s ?ch ?s3] =>
      pose proof (add_points_ledger n u c a s ch s3 H2) as H3;
      destruct (add_points_to_clan_and_user n u c a s ch s3) as [ok st4]
  end.
  by destruct ok.
Qed.

(** C2, at the failing input: Bob holds 100 points, all of them logged, and
    buys a sword for 30.  Before the purchase the ledger balances for every
    user; after it Bob's stored points are 70 while his log rows still sum
    to 100: [purchase] writes the new points and no log row. *)
Theorem purchase_breaks_ledger :
  let r := purchase 2 "Sword" Sample.shop_state in
  ledger_ok Sample.shop_state
  ∧ r.1 = Purchased 30
  ∧ lifetime_points 2 r.2 = 70
  ∧ log_sum 2 (logs r.2) = 100
  ∧ ¬ ledger_ok r.2.
Proof.
  split; [|split; [|split; [|split]]]; try (vm_compute; reflexivity).
  - intros u. unfold lifetime_points. simpl.
    destruct (decide (2 = u)) as [<-|Hne].
    + reflexivity.
    + rewrite lookup_insert_ne by done. rewrite lookup_empty.
      by destruct (decide (2 = u)).
  - intros H. specialize (H 2). vm_compute in H. discriminate H.
Qed.

(** ** Administrative removal *)

Lemma get_user_clan_row now user_id guild st u row :
  users st !! u = Some row →
  ∃ row', users (get_user_clan now user_id guild st).2 !! u = Some row'
          ∧ user_points row' = user_points row.
Proof.
  intros Hrow. unfold get_user_clan.
  repeat case_match; simplify_eq/=; eauto;
    (destruct (decide (user_id = u)) as [->|Hne];
     [rewrite lookup_insert_eq; simplify_eq/=; eauto
     |rewrite lookup_insert_ne by done; eauto]).
Qed.

(** C9: an admin removal of more than the user's stored points is turned
    down before any write to the points: the user's points, the clan table
    and the point log are as before; and a removal, accepted or not, never
    takes stored points that were not negative below zero. *)
Theorem removepoints_guard now guild user amount channel_id st row :
  users st !! member_id user = Some row →
  let r := removepoints now guild user amount channel_id st in
  (user_points row < amount →
   r.1 ≠ RemoveOk
   ∧ (∃ row', users r.2 !! member_id user = Some row'
              ∧ user_points row' = user_points row)
   ∧ clans r.2 = clans st
   ∧ logs r.2 = logs st)
  ∧ (0 <= user_points row → 0 <= lifetime_points (member_id user) r.2).
Proof.
  intros Hrow r. unfold r, removepoints.
  assert (Hlife : lifetime_points (member_id user) st = user_points row)
    by (unfold lifetime_points; by rewrite Hrow).
  destruct (Z.leb amount 0);
    [split; [intros; split; [done|]; eauto | simpl; lia]|].
  destruct (Z.ltb 10000 amount);
    [split; [intros; split; [done|]; eauto | simpl; lia]|].
  destruct (get_user_clan_row now (member_id user) guild st _ _ Hrow)
    as (row1 & Hrow1 & Hp1).
  pose proof (get_user_clan_tables now (member_id user) guild st)
    as (Hclans & Hlogs & _).
  destruct (get_user_clan now (member_id user) guild st) as [clan st1].
  simpl in Hrow1, Hclans, Hlogs.
  assert (Hlife1 : lifetime_points (member_id user) st1 = user_points row)
    by (unfold lifetime_points; by rewrite Hrow1).
  destruct clan as [clan|];
    [|split; [intros; split; [done|]; eauto | simpl; lia]].
  destruct (negb (str_truthy (Some clan)));
    [split; [intros; split; [done|]; eauto | simpl; lia]|].
  rewrite Hrow1.
  destruct (Z.ltb_spec (user_points row1) amount) as [Hlt|Hge];
    [split; [intros; split; [done|]; eauto | simpl; lia]|].
  split; [lia|]. intros Hpos.
  destruct (get_clan_points_locked now clan _) as [cur|]; simpl; [|lia].
  unfold lifetime_points. simpl. rewrite lookup_insert_eq. simpl. lia.
Qed.

Lemma removepoints_guard_witness :
  (removepoints Sample.monday_noon (Some Sample.guild) Sample.bob 150 7
     Sample.shop_state).1 ≠ RemoveOk
  ∧ 0 <= lifetime_points 2
           (removepoints Sample.monday_noon (Some Sample.guild) Sample.bob 150 7
              Sample.shop_state).2.
Proof.
  pose proof (removepoints_guard Sample.monday_noon (Some Sample.guild)
                Sample.bob 150 7 Sample.shop_state
                (mkUser (Some "Wolves"%string) 100 0 (Iso Sample.this_monday)
                        (Iso Sample.this_monday) 2000) eq_refl) as [H1 H2].
  split.
  - apply H1. simpl. lia.
  - apply H2. simpl. lia.
Defined.

Lemma removepoints_sample_runs :
  (removepoints Sample.monday_noon (Some Sample.guild) Sample.bob 150 7
     Sample.shop_state).1 = RemoveInsufficient
  ∧ (let r := removepoints Sample.monday_noon (Some Sample.guild) Sample.bob 40 7
                Sample.shop_state in
     r.1 = RemoveOk ∧ lifetime_points 2 r.2 = 60
     ∧ (clan_points <$> clans r.2 !! "Wolves"%string) = Some 60
     ∧ log_sum 2 (logs r.2) = 60).
Proof. vm_compute. repeat split. Qed.

(** ** Achievements *)

Lemma has_achievement_elem k rows :
  has_achievement k rows = true ↔ k ∈ achievement_key <$> rows.
Proof.
  unfold has_achievement. rewrite existsb_exists, list_elem_of_fmap.
  split.
  - intros (r & Hin & Hk). apply bool_decide_eq_true in Hk.
    exists r. split; [done|]. by apply list_elem_of_In.
  - intros (r & Hk & Hin). exists r. split; [by apply list_elem_of_In|].
    by apply bool_decide_eq_true.
Qed.

Lemma insert_or_ignore_present row rows :
  has_achievement (achievement_key row) rows = true →
  insert_or_ignore row rows = rows.
Proof. intros H. unfold insert_or_ignore. by rewrite H. Qed.

Lemma insert_or_ignore_has row rows :
  has_achievement (achievement_key row) (insert_or_ignore row rows) = true.
Proof.
  unfold insert_or_ignore.
  destruct (has_achievement (achievement_key row) rows) eqn:H; [done|].
  apply has_achievement_elem. rewrite fmap_app. set_solver.
Qed.

Lemma insert_or_ignore_mono k row rows :
  has_achievement k rows = true →
  has_achievement k (insert_or_ignore row rows) = true.
Proof.
  intros H. unfold insert_or_ignore.
  destruct (has_achievement (achievement_key row) rows); [done|].
  apply has_achievement_elem. apply has_achievement_elem in H.
  rewrite fmap_app. apply elem_of_app. by left.
Qed.

Lemma insert_or_ignore_NoDup row rows :
  NoDup (achievement_key <$> rows) →
  NoDup (achievement_key <$> insert_or_ignore row rows).
Proof.
  intros H. unfold insert_or_ignore.
  destruct (has_achievement (achievement_key row) rows) eqn:Hhas; [done|].
  rewrite fmap_app. apply NoDup_app. split; [done|]. split.
  - intros k Hk. simpl. rewrite list_elem_of_singleton. intros ->.
    apply has_achievement_elem in Hk. congruence.
  - simpl. apply NoDup_singleton.
Qed.

Section milestone_loop.
Variables (now : datetime) (user_id points : Z).

Local Abbreviation step := (check_milestone now user_id points).

Lemma check_loop_names ms acc tbl :
  (foldl step (acc, tbl) ms).1
  = acc ++ (milestone_name <$> filter (λ m, m <= points) ms).
Proof.
  revert acc tbl. induction ms as [|m ms IH]; intros acc tbl; simpl.
  - by rewrite app_nil_r.
  - unfold check_milestone at 2. rewrite filter_cons. simpl.
    destruct (Z.leb_spec m points) as [Hle|Hgt].
    + rewrite decide_True by done. rewrite IH, fmap_cons.
      by rewrite <- app_assoc.
    + rewrite decide_False by lia. apply IH.
Qed.

Lemma check_loop_NoDup ms acc tbl :
  NoDup (achievement_key <$> tbl) →
  NoDup (achievement_key <$> (foldl step (acc, tbl) ms).2).
Proof.
  revert acc tbl. induction ms as [|m ms IH]; intros acc tbl H; [done|].
  simpl. unfold check_milestone at 2.
  destruct (Z.leb m points); [|by apply IH].
  apply IH. simpl. by apply insert_or_ignore_NoDup.
Qed.

Lemma check_loop_mono ms acc tbl k :
  has_achievement k tbl = true →
  has_achievement k (foldl step (acc, tbl) ms).2 = true.
Proof.
  revert acc tbl. induction ms as [|m ms IH]; intros acc tbl H; [done|].
  simpl. unfold check_milestone at 2.
  destruct (Z.leb m points); [|by apply IH].
  apply IH. simpl. by apply insert_or_ignore_mono.
Qed.

(** After the loop every milestone reached has its record. *)
Lemma check_loop_complete ms acc tbl m :
  m ∈ ms → m <= points →
  has_achievement (user_id, milestone_name m) (foldl step (acc, tbl) ms).2
  = true.
Proof.
  revert acc tbl. induction ms as [|m' ms IH]; intros acc tbl Hin Hle.
  - by apply elem_of_nil in Hin.
  - simpl. apply elem_of_cons in Hin as [->|Hin];
      [|destruct (step (acc, tbl) m') as [acc' tbl']; by apply IH].
    unfold check_milestone at 2.
    destruct (Z.leb_spec m' points); [|lia].
    apply check_loop_mono. simpl.
    apply (insert_or_ignore_has (mkAchievement user_id (milestone_name m') now)).
Qed.
End milestone_loop.

(** A loop over milestones that all have their record writes nothing. *)
Lemma check_loop_fixed now user_id points ms acc tbl :
  (∀ m, m ∈ ms → m <= points →
        has_achievement (user_id, milestone_name m) tbl = true) →
  (foldl (check_milestone now user_id points) (acc, tbl) ms).2 = tbl.
Proof.
  revert acc. induction ms as [|m ms IH]; intros acc H; [done|].
  simpl. unfold check_milestone at 2.
  destruct (Z.leb_spec m points) as [Hle|Hgt].
  - simpl. rewrite insert_or_ignore_present.
    + apply IH. intros m' Hin. apply H. by right.
    + simpl. apply H; [by left|done].
  - apply IH. intros m' Hin. apply H. by right.
Qed.

(** C3 (amended): two calls of the evaluator in a row, with no change to the
    user's lifetime points in between, return the same list: the name of
    every milestone at or below the points, whether its record was just
    inserted or was there already.  The second call writes nothing, and a
    table without duplicate (user id, achievement name) keys stays so. *)
Theorem check_achievements_twice now now' user_id st :
  let r1 := check_achievements now user_id st in
  let r2 := check_achievements now' user_id r1.2 in
  r2.1 = r1.1
  ∧ r2.2 = r1.2
  ∧ r1.1 = (λ row, milestone_name <$>
                     filter (λ m, m <= user_points row) milestones)
           <$> users st !! user_id
  ∧ (NoDup (achievement_key <$> achievements st) →
     NoDup (achievement_key <$> achievements r1.2)).
Proof.
  unfold check_achievements.
  generalize milestones. intros ms.
  destruct (users st !! user_id) as [row|] eqn:Hrow; cbn [fst snd users];
    [|by rewrite Hrow].
  assert (Husers : ∀ tbl, users (set_achievements tbl st) = users st) by done.
  rewrite Husers, Hrow. cbn [fst snd fmap option_fmap option_map achievements].
  rewrite !check_loop_names. cbn [app].
  split; [done|]. split; [|split; [done|]].
  - cbn [set_achievements achievements]. rewrite check_loop_fixed; [done|].
    intros m Hin Hle. by apply check_loop_complete.
  - cbn [set_achievements achievements]. apply check_loop_NoDup.
Qed.

Lemma check_achievements_twice_witness :
  NoDup (achievement_key <$>
           achievements (check_achievements Sample.monday_noon 2
                           Sample.shop_state).2).
Proof.
  apply (check_achievements_twice Sample.monday_noon Sample.wednesday_noon 2
           Sample.shop_state).
  simpl. apply NoDup_nil_2.
Defined.

(** C3 as stated fails: Bob holds 100 points, and the second of two calls
    in a row reports the milestone again instead of an empty list. *)
Lemma check_achievements_second_call_not_empty :
  let r1 := check_achievements Sample.monday_noon 2 Sample.shop_state in
  let r2 := check_achievements Sample.monday_noon 2 r1.2 in
  lifetime_points 2 r1.2 = lifetime_points 2 Sample.shop_state
  ∧ r1.1 = Some ["Reached 100 Points"%string]
  ∧ r2.1 = Some ["Reached 100 Points"%string]
  ∧ r2.1 ≠ Some [].
Proof. vm_compute. repeat split. discriminate. Qed.

(** ** Channel and seasonal multipliers *)

(** The amount of a message award does not depend on the multiplier tables:
    two stores with the same configuration award the same amount. *)
Lemma on_message_amount_same_config now message st1 st2 r1 r2 st1' st2' :
  config st1 = config st2 →
  on_message now message st1 = (Some r1, st1') →
  on_message now message st2 = (Some r2, st2') →
  r1.1 = r2.1.
Proof.
  intros Hc H1 H2.
  rewrite (on_message_amount _ _ _ _ _ H1), (on_message_amount _ _ _ _ _ H2).
  by rewrite (has_bonus_role_config st2 st1).
Qed.

(** C8, at the failing input: channel 7 is given the multiplier 2.0 and a
    seasonal event with multiplier 2.0 covers the day; Bob, without the
    bonus role, writes 9 characters there on a Wednesday.  The command
    stored the multiplier, yet the award is the bare 1 point: one log row
    of amount 1, one point for Bob and one for his clan. *)
Theorem on_message_ignores_multipliers :
  let s := setchannelmultiplier 7 "general" 2 Sample.event_state in
  let r := on_message Sample.wednesday_noon Sample.short_message s.2 in
  s.1 = true
  ∧ (multiplier <$> channel_multipliers s.2 !! 7) = Some (2 : Q)
  ∧ (point_multiplier <$> seasonal_events s.2 !! "Winter"%string) = Some (2 : Q)
  ∧ r.1 = Some (1, None)
  ∧ (log_amount <$> logs r.2) = [1]
  ∧ lifetime_points 2 r.2 = 1
  ∧ (clan_points <$> clans r.2 !! "Wolves"%string) = Some 1.
Proof. vm_compute. repeat split. Qed.

(** * Further properties *)

(** ** The week *)

(** X1: [get_week_start] is the last Monday midnight at or before the
    instant: it is a multiple of a day, a Monday, not after [now] and less
    than seven days before it; taking the week start twice changes
    nothing. *)
Theorem get_week_start_last_monday now :
  get_week_start now <= now < get_week_start now + 7 * US_PER_DAY
  ∧ get_week_start now mod US_PER_DAY = 0
  ∧ weekday (get_week_start now) = 0
  ∧ get_week_start (get_week_start now) = get_week_start now.
Proof.
  assert (Hday : ∀ d, utc_date (d * US_PER_DAY) = d).
  { intros d. unfold utc_date. apply Z.div_mul.
    unfold US_PER_DAY, US_PER_SECOND. lia. }
  assert (Hmon : weekday (get_week_start now) = 0).
  { unfold get_week_start. unfold weekday at 1. rewrite Hday.
    unfold weekday.
    pose proof (Z.div_mod (utc_date now + 3) 7 ltac:(lia)) as Hd.
    replace (utc_date now - (utc_date now + 3) mod 7 + 3)
      with ((utc_date now + 3) / 7 * 7) by lia.
    apply Z.mod_mul. lia. }
  split; [|split; [|split]].
  - unfold get_week_start, weekday.
    pose proof (Z.mod_pos_bound (utc_date now + 3) 7 ltac:(lia)) as Hw.
    unfold utc_date in *.
    pose proof (Z.div_mod now US_PER_DAY
                  ltac:(unfold US_PER_DAY, US_PER_SECOND; lia)) as Hd.
    pose proof (Z.mod_pos_bound now US_PER_DAY
                  ltac:(unfold US_PER_DAY, US_PER_SECOND; lia)) as Hr.
    assert (HD : 0 < US_PER_DAY) by (unfold US_PER_DAY, US_PER_SECOND; lia).
    nia.
  - unfold get_week_start. apply Z.mod_mul.
    unfold US_PER_DAY, US_PER_SECOND. lia.
  - exact Hmon.
  - unfold get_week_start at 1. rewrite Hmon.
    unfold get_week_start at 1. rewrite Hday. unfold get_week_start. lia.
Qed.

(** ** Messages that do not count *)

Lemma set_last_message_time_id st :
  set_last_message_time (last_message_time st) st = st.
Proof. by destruct st. Qed.

Lemma get_user_clan_stamps now user_id guild st :
  last_message_time (get_user_clan now user_id guild st).2
  = last_message_time st.
Proof. unfold get_user_clan. repeat case_match; done. Qed.

Lemma check_achievements_stamps now user_id st :
  last_message_time (check_achievements now user_id st).2
  = last_message_time st.
Proof. unfold check_achievements. by destruct (users st !! user_id). Qed.

Lemma add_points_stamps now user_id clan amount source channel_id st :
  last_message_time
    (add_points_to_clan_and_user now user_id clan amount source channel_id st).2
  = last_message_time st.
Proof.
  destruct (clans st !! clan) as [data|] eqn:Hc;
    [|by rewrite add_points_missing_clan].
  destruct (Z.le_gt_cases (clan_points (current_week_row now data) + amount)
              (max_points data)) as [Hfit|Hover];
    [|by rewrite (add_points_over_cap _ _ _ _ _ _ _ _ Hc Hover)].
  destruct (check_daily_limit_entry now user_id amount
              (set_clans (<[clan := current_week_row now data]> (clans st)) st))
    as (e & _ & _ & Hchk).
  destruct (check_daily_limit now user_id amount
              (set_clans (<[clan := current_week_row now data]> (clans st)) st)).1
    eqn:Hd.
  - rewrite (add_points_accepted _ _ _ _ _ _ _ _ Hc Hfit Hd). simpl.
    unfold apply_award. rewrite check_achievements_stamps. simpl.
    rewrite Hchk. simpl. by destruct (users st !! user_id).
  - rewrite (add_points_over_budget _ _ _ _ _ _ _ _ Hc Hfit Hd).
    by rewrite Hchk.
Qed.

(** A message that passes the filters stamps the author's cooldown. *)
Lemma on_message_stamps now message st :
  member_bot (msg_author message) = false →
  msg_type_default message = true →
  (is_rate_limited now (member_id (msg_author message)) st).1 = false →
  (3 <= String.length (msg_content message))%nat →
  isspace (msg_content message) = false →
  last_message_time (on_message now message st).2
    !! member_id (msg_author message) = Some now.
Proof.
  intros Hbot Htype Hlim Hlen Hsp. unfold on_message.
  rewrite Hbot, Htype. simpl.
  destruct (is_rate_limited now (member_id (msg_author message)) st)
    as [limited st1].
  simpl in Hlim. subst limited.
  destruct (Nat.ltb_spec (String.length (msg_content message)) 3); [lia|].
  rewrite Hsp. simpl.
  match goal with
  | |- context [get_user_clan ?n ?u ?g ?s] =>
      pose proof (get_user_clan_stamps n u g s) as Hst;
      destruct (get_user_clan n u g s) as [clan st3]
  end.
  simpl in Hst.
  assert (H3 : last_message_time st3 !! member_id (msg_author message)
               = Some now) by (rewrite Hst; apply lookup_insert_eq).
  destruct clan as [clan|]; [|done].
  destruct (msg_guild message) as [g|]; [|done].
  destruct (negb (negb _)); [done|].
  destruct (utils_get_role (guild_roles g) clan) as [clan_role|]; [|done].
  destruct (get_member g (member_id (msg_author message))) as [member|]; [|done].
  destruct (negb (role_in clan_role (member_roles member))); [done|].
  match goal with
  | |- context [add_points_to_clan_and_user ?n ?u ?c ?a ?s ?ch ?s3] =>
      pose proof (add_points_stamps n u c a s ch s3) as Hadd;
      destruct (add_points_to_clan_and_user n u c a s ch s3) as [ok st4]
  end.
  simpl in Hadd. destruct ok; simpl; by rewrite Hadd.
Qed.

(** A message sent less than five seconds after the author's stamp does
    nothing at all. *)
Lemma on_message_limited now message st t :
  last_message_time st !! member_id (msg_author message) = Some t →
  now - t < MESSAGE_COOLDOWN * US_PER_SECOND →
  on_message now message st = (None, st).
Proof.
  intros Ht Hlt. unfold on_message. cbv zeta.
  destruct (_ || _); [done|].
  unfold is_rate_limited, defaultdict_get. unfold datetime in *. rewrite Ht.
  rewrite set_last_message_time_id.
  destruct (Z.ltb_spec (now - t) (MESSAGE_COOLDOWN * US_PER_SECOND)); [done|lia].
Qed.

(** X2: once a message of an author has passed the filters at [now], a
    message of the same author that arrives less than five seconds later
    earns nothing and, up to the [finally] clause, changes nothing: all
    the handler does with it is to hand it to the command processor.  (No
    command writes the cooldown table; this is asked of the command the
    first message carried.) *)
Theorem on_message_cooldown process_commands now now' message message' st :
  member_bot (msg_author message) = false →
  msg_type_default message = true →
  (is_rate_limited now (member_id (msg_author message)) st).1 = false →
  (3 <= String.length (msg_content message))%nat →
  isspace (msg_content message) = false →
  last_message_time (process_commands now message (on_message now message st).2)
  = last_message_time (on_message now message st).2 →
  member_id (msg_author message') = member_id (msg_author message) →
  now' - now < 5 * US_PER_SECOND →
  let st1 := (on_message_event process_commands now message st).2 in
  on_message now' message' st1 = (None, st1)
  ∧ on_message_event process_commands now' message' st1
    = (None, process_commands now' message' st1).
Proof.
  intros Hbot Htype Hlim Hlen Hsp Hpc Hsame Hsoon st1.
  assert (Hdrop : on_message now' message' st1 = (None, st1)).
  { apply (on_message_limited now' message' _ now); [|done].
    rewrite Hsame. unfold st1, on_message_event.
    pose proof (on_message_stamps now message st Hbot Htype Hlim Hlen Hsp)
      as Hstamp.
    destruct (on_message now message st) as [r st0]. simpl in *.
    by rewrite Hpc. }
  split; [done|]. unfold on_message_event at 1. by rewrite Hdrop.
Qed.

Lemma on_message_cooldown_witness :
  on_message_event Scenario.process_commands
    (Sample.saturday_noon + 2 * US_PER_SECOND) Scenario.order
    (on_message_event Scenario.process_commands Sample.saturday_noon
       Scenario.order Sample.shop_state).2
  = (None,
     Scenario.process_commands (Sample.saturday_noon + 2 * US_PER_SECOND)
       Scenario.order
       (on_message_event Scenario.process_commands Sample.saturday_noon
          Scenario.order Sample.shop_state).2).
Proof.
  apply (on_message_cooldown Scenario.process_commands Sample.saturday_noon
           (Sample.saturday_noon + 2 * US_PER_SECOND)
           Scenario.order Scenario.order Sample.shop_state).
  - reflexivity.
  - reflexivity.
  - vm_compute. reflexivity.
  - vm_compute. lia.
  - vm_compute. reflexivity.
  - vm_compute. reflexivity.
  - reflexivity.
  - vm_compute. reflexivity.
Defined.

(** The order sent inside the cooldown is still carried out: the first
    message earns 1 point and buys a sword (100 + 1 - 30), the second
    earns nothing and buys another (71 - 30). *)
Lemma on_message_cooldown_order_runs :
  let st1 := (on_message_event Scenario.process_commands Sample.saturday_noon
                Scenario.order Sample.shop_state).2 in
  let r := on_message_event Scenario.process_commands
             (Sample.saturday_noon + 2 * US_PER_SECOND) Scenario.order st1 in
  r.1 = None ∧ lifetime_points 2 st1 = 71 ∧ lifetime_points 2 r.2 = 41.
Proof. vm_compute. repeat split. Qed.

Lemma is_rate_limited_value now user_id st :
  (is_rate_limited now user_id st).1
  = Z.ltb (now - default 0 (last_message_time st !! user_id))
          (MESSAGE_COOLDOWN * US_PER_SECOND).
Proof.
  unfold is_rate_limited, defaultdict_get. unfold datetime in *.
  by destruct (_ !! _).
Qed.

(** The entry that a look-up creates is the default itself: the stamp read
    for any user is the same before and after. *)
Lemma is_rate_limited_stamp now user_id st user_id' :
  default 0 (last_message_time (is_rate_limited now user_id st).2 !! user_id')
  = default 0 (last_message_time st !! user_id').
Proof.
  unfold is_rate_limited, defaultdict_get. unfold datetime in *.
  destruct (_ !! user_id) eqn:Hl; simpl; [done|].
  destruct (decide (user_id = user_id')) as [<-|Hne].
  - by rewrite lookup_insert_eq, Hl.
  - by rewrite lookup_insert_ne.
Qed.

(** X3: a message of a bot, of a non-default type, of fewer than three
    characters or made of white space only awards nothing and, up to the
    [finally] clause, leaves every table and the daily tracker as they
    were and does not consume the author's cooldown: the stamp every user
    is compared with is the same before and after.  What the handler
    returns is what the command processor makes of that store. *)
Theorem on_message_ignored process_commands now message st :
  member_bot (msg_author message) = true
  ∨ msg_type_default message = false
  ∨ (String.length (msg_content message) < 3)%nat
  ∨ isspace (msg_content message) = true →
  let r := on_message now message st in
  on_message_event process_commands now message st
  = (None, process_commands now message r.2)
  ∧ r.1 = None
  ∧ clans r.2 = clans st ∧ users r.2 = users st ∧ logs r.2 = logs st
  ∧ achievements r.2 = achievements st
  ∧ user_daily_points r.2 = user_daily_points st
  ∧ ∀ user_id now',
      (is_rate_limited now' user_id r.2).1 = (is_rate_limited now' user_id st).1.
Proof.
  intros Hcase.
  assert (Hblock :
    let r := on_message now message st in
    r.1 = None
    ∧ clans r.2 = clans st ∧ users r.2 = users st ∧ logs r.2 = logs st
    ∧ achievements r.2 = achievements st
    ∧ user_daily_points r.2 = user_daily_points st
    ∧ ∀ user_id now',
        (is_rate_limited now' user_id r.2).1
        = (is_rate_limited now' user_id st).1).
  { revert Hcase. clear process_commands. intros Hcase.
    unfold on_message.
    destruct (member_bot (msg_author message) || negb (msg_type_default message))
      eqn:Hfirst; [done|].
    apply orb_false_elim in Hfirst as [Hbot Htype].
    apply negb_false_iff in Htype.
    destruct Hcase as [Hc|[Hc|Hc]]; [congruence|congruence|].
    assert (Hstamps : ∀ user_id now' st1,
              (is_rate_limited now (member_id (msg_author message)) st).2 = st1 →
              (is_rate_limited now' user_id st1).1
              = (is_rate_limited now' user_id st).1).
    { intros user_id now' st1 <-.
      by rewrite !is_rate_limited_value, is_rate_limited_stamp. }
    assert (Htables : ∀ st1,
              (is_rate_limited now (member_id (msg_author message)) st).2 = st1 →
              clans st1 = clans st ∧ users st1 = users st ∧ logs st1 = logs st
              ∧ achievements st1 = achievements st
              ∧ user_daily_points st1 = user_daily_points st).
    { intros st1 <-. unfold is_rate_limited.
      by destruct (defaultdict_get 0 _ _). }
    destruct (is_rate_limited now (member_id (msg_author message)) st)
      as [limited st1] eqn:Hrl.
    specialize (Htables st1 eq_refl). simpl in Hstamps.
    destruct limited; [simpl; intuition auto|].
    destruct (Nat.ltb (String.length (msg_content message)) 3
              || isspace (msg_content message)) eqn:Hfilter; [simpl; intuition auto|].
    apply orb_false_elim in Hfilter as [Hlen Hsp].
    apply Nat.ltb_ge in Hlen. destruct Hc as [Hc|Hc]; [lia|congruence].
  }
  intros r. destruct Hblock as (Hnone & Hrest). fold r in Hnone, Hrest.
  split; [|by split].
  unfold on_message_event. fold r. destruct r as [r1 st1]. simpl in *.
  by rewrite Hnone.
Qed.

Lemma on_message_ignored_witness :
  on_message_event Scenario.process_commands Sample.saturday_noon
    (mkMessage Sample.alice true "ok" 7 (Some Sample.guild)) Sample.base_state
  = (None,
     Scenario.process_commands Sample.saturday_noon
       (mkMessage Sample.alice true "ok" 7 (Some Sample.guild))
       (on_message Sample.saturday_noon
          (mkMessage Sample.alice true "ok" 7 (Some Sample.guild))
          Sample.base_state).2).
Proof.
  apply (on_message_ignored Scenario.process_commands Sample.saturday_noon
           (mkMessage Sample.alice true "ok" 7 (Some Sample.guild))
           Sample.base_state).
  right. right. left. simpl. lia.
Defined.

(** ** The amounts of message awards *)

(** X4: the amount of every message award is 1, or 5 with the bonus role;
    the weekend turns 5 into 7 and leaves 1 as it is ([int(1 * 1.5)] is 1);
    more than 50 characters add 1.  So every award is between 1 and 8. *)
Theorem on_message_amount_table now message st r st' :
  on_message now message st = (Some r, st') →
  r.1 = (if has_bonus_role st (msg_author message)
         then (if Z.leb 5 (weekday now) then 7 else 5)
         else 1)
        + (if Nat.ltb 50 (String.length (msg_content message)) then 1 else 0)
  ∧ 1 <= r.1 <= 8.
Proof.
  intros Hrun. rewrite (on_message_amount _ _ _ _ _ Hrun).
  unfold message_amount.
  destruct (has_bonus_role st (msg_author message)),
    (Z.leb 5 (weekday now)),
    (Nat.ltb 50 (String.length (msg_content message)));
    vm_compute; repeat split; congruence.
Qed.

Lemma on_message_amount_table_witness :
  (1 : Z) = 1 + 0 ∧ 1 <= (1 : Z) <= 8.
Proof.
  apply (on_message_amount_table
           (Sample.saturday_noon) Sample.short_message Sample.base_state
           (1, None)
           (on_message Sample.saturday_noon Sample.short_message
              Sample.base_state).2).
  apply pair_eta. vm_compute. reflexivity.
Defined.

(** ** What an award writes *)

Lemma check_loop_prefix now user_id points ms acc tbl :
  tbl `prefix_of` (foldl (check_milestone now user_id points) (acc, tbl) ms).2.
Proof.
  revert acc tbl. induction ms as [|m ms IH]; intros acc tbl; [done|].
  simpl. unfold check_milestone at 2.
  destruct (Z.leb m points); [|apply IH].
  simpl. etrans; [|apply IH].
  unfold insert_or_ignore. destruct (has_achievement _ _); [done|].
  by apply prefix_app_r.
Qed.

Lemma check_achievements_prefix now user_id st :
  achievements st `prefix_of` achievements (check_achievements now user_id st).2.
Proof.
  unfold check_achievements.
  destruct (users st !! user_id) as [row|]; [|done].
  cbn [snd set_achievements achievements]. apply check_loop_prefix.
Qed.

Lemma check_achievements_complete now user_id st row m :
  users st !! user_id = Some row →
  m ∈ milestones → m <= user_points row →
  has_achievement (user_id, milestone_name m)
    (achievements (check_achievements now user_id st).2) = true.
Proof.
  intros Hrow Hin Hle. unfold check_achievements. rewrite Hrow.
  cbn [snd set_achievements achievements].
  by apply check_loop_complete.
Qed.

(** X5: an accepted award adds the amount to the clan's points of the
    current week and to the user's lifetime points, appends one log row
    with the amount and the source, raises the user's daily tracker by the
    amount, keeps every achievement record that existed, and leaves the
    user with a record for each milestone at or below the new points. *)
Theorem add_points_accepted_effect now user_id clan amount source channel_id
    st st' :
  add_points_to_clan_and_user now user_id clan amount source channel_id st
  = (true, st') →
  ∃ data,
    clans st !! clan = Some data
    ∧ clan_points (current_week_row now data) + amount <= max_points data
    ∧ (clan_points <$> clans st' !! clan)
      = Some (clan_points (current_week_row now data) + amount)
    ∧ lifetime_points user_id st' = lifetime_points user_id st + amount
    ∧ logs st' = logs st ++ [mkLog user_id amount source now channel_id]
    ∧ (∃ e, user_daily_points st' !! user_id = Some e
            ∧ daily_date e = Some (utc_date now)
            ∧ daily_points e <= MAX_DAILY_POINTS)
    ∧ achievements st `prefix_of` achievements st'
    ∧ ∀ m, m ∈ milestones → m <= lifetime_points user_id st' →
           has_achievement (user_id, milestone_name m) (achievements st') = true.
Proof.
  intros Hrun.
  destruct (clans st !! clan) as [data|] eqn:Hc;
    [|by rewrite add_points_missing_clan in Hrun].
  destruct (Z.le_gt_cases (clan_points (current_week_row now data) + amount)
              (max_points data)) as [Hfit|Hover];
    [|by rewrite (add_points_over_cap _ _ _ _ _ _ _ _ Hc Hover) in Hrun].
  destruct (check_daily_limit_entry now user_id amount
              (set_clans (<[clan := current_week_row now data]> (clans st)) st))
    as (e & Hdate & _ & Hchk).
  destruct (check_daily_limit now user_id amount
              (set_clans (<[clan := current_week_row now data]> (clans st)) st)).1
    eqn:Hd;
    [|by rewrite (add_points_over_budget _ _ _ _ _ _ _ _ Hc Hfit Hd) in Hrun].
  rewrite (add_points_accepted _ _ _ _ _ _ _ _ Hc Hfit Hd) in Hrun.
  injection Hrun as <-.
  rewrite Hchk in Hd |- *. simpl in Hd. apply Z.leb_le in Hd. simpl.
  set (st2 := set_user_daily_points _ _).
  exists data. split; [done|]. split; [done|].
  destruct (apply_award_users now user_id clan amount source channel_id
              (clan_points (current_week_row now data)) st2)
    as (row' & Hu & Hp).
  assert (Hlife : lifetime_points user_id
                    (apply_award now user_id clan amount source channel_id
                       (clan_points (current_week_row now data)) st2)
                  = lifetime_points user_id st + amount).
  { unfold lifetime_points at 1. rewrite Hu, lookup_insert_eq. exact Hp. }
  split; [|split; [done|split; [|split; [|split]]]].
  - rewrite apply_award_clans. simpl.
    by rewrite lookup_alter_eq, lookup_insert_eq.
  - by rewrite apply_award_logs.
  - rewrite (apply_award_daily _ _ _ _ _ _ _ st2 e)
      by (unfold st2; simpl; apply lookup_insert_eq).
    rewrite lookup_insert_eq. eexists. split; [done|]. simpl. split; [done|lia].
  - unfold apply_award. etrans; [|apply check_achievements_prefix].
    simpl. by destruct (users st !! user_id).
  - intros m Hin Hle. unfold apply_award in *.
    match goal with
    | |- context [check_achievements ?n ?u ?s] =>
        destruct (check_achievements_tables n u s) as (_ & Husers & _);
        unfold lifetime_points in Hle; rewrite Husers in Hle;
        destruct (users s !! user_id) as [row7|] eqn:Hrow7
    end.
    + by apply (check_achievements_complete _ _ _ row7).
    + apply list_elem_of_In in Hin. simpl in Hin. lia.
Qed.

Lemma add_points_accepted_effect_witness :
  logs (add_points_to_clan_and_user Sample.monday_noon 2 "Wolves" 200 "admin"
          (Some 7) Sample.budget_state).2
  = logs Sample.budget_state
    ++ [mkLog 2 200 "admin" Sample.monday_noon (Some 7)].
Proof.
  destruct (add_points_accepted_effect Sample.monday_noon 2 "Wolves" 200
              "admin" (Some 7) Sample.budget_state
              (add_points_to_clan_and_user Sample.monday_noon 2 "Wolves" 200
                 "admin" (Some 7) Sample.budget_state).2)
    as (data & _ & _ & _ & _ & Hlogs & _).
  - apply pair_eta. vm_compute. reflexivity.
  - exact Hlogs.
Defined.

(** X6: a refused award writes no points, no log row and no achievement
    record; the daily tracker's totals of the day stay as they are; the one
    row it may have rewritten is the clan's, by the weekly rollover of the
    read. *)
Theorem add_points_refused_effect now user_id clan amount source channel_id
    st st' :
  add_points_to_clan_and_user now user_id clan amount source channel_id st
  = (false, st') →
  users st' = users st
  ∧ logs st' = logs st
  ∧ achievements st' = achievements st
  ∧ (clans st' = clans st
     ∨ ∃ data, clans st !! clan = Some data
               ∧ clans st' = <[clan := current_week_row now data]> (clans st))
  ∧ (∀ u e, user_daily_points st !! u = Some e →
            daily_date e = Some (utc_date now) →
            user_daily_points st' !! u = Some e).
Proof.
  intros Hrun.
  destruct (clans st !! clan) as [data|] eqn:Hc.
  2:{ rewrite add_points_missing_clan in Hrun by done.
      injection Hrun as <-. auto 10. }
  destruct (Z.le_gt_cases (clan_points (current_week_row now data) + amount)
              (max_points data)) as [Hfit|Hover].
  2:{ rewrite (add_points_over_cap _ _ _ _ _ _ _ _ Hc Hover) in Hrun.
      injection Hrun as <-. simpl. eauto 10. }
  destruct (check_daily_limit_entry now user_id amount
              (set_clans (<[clan := current_week_row now data]> (clans st)) st))
    as (e & Hdate & He & Hchk).
  destruct (check_daily_limit now user_id amount
              (set_clans (<[clan := current_week_row now data]> (clans st)) st)).1
    eqn:Hd.
  { by rewrite (add_points_accepted _ _ _ _ _ _ _ _ Hc Hfit Hd) in Hrun. }
  rewrite (add_points_over_budget _ _ _ _ _ _ _ _ Hc Hfit Hd) in Hrun.
  injection Hrun as <-. rewrite Hchk. simpl.
  split; [done|]. split; [done|]. split; [done|]. split; [eauto|].
  intros u e' He' Hdate'.
  destruct (decide (user_id = u)) as [<-|Hne];
    [|by rewrite lookup_insert_ne].
  rewrite lookup_insert_eq. f_equal.
  destruct He as [He|He]; simpl in He.
  - unfold check_daily_limit, defaultdict_get in Hchk. simpl in Hchk.
    rewrite He' in Hchk.
    destruct (decide (daily_date e' ≠ Some (utc_date now))); [done|].
    injection Hchk as _ Hmap.
    assert (Hlook := f_equal (λ m, m !! user_id) Hmap). simpl in Hlook.
    rewrite !lookup_insert_eq in Hlook. congruence.
  - congruence.
Qed.

Lemma add_points_refused_effect_witness :
  users (add_points_to_clan_and_user Sample.monday_noon 2 "Wolves" 300 "admin"
           (Some 7) Sample.budget_state).2
  = users Sample.budget_state.
Proof.
  apply (add_points_refused_effect Sample.monday_noon 2 "Wolves" 300 "admin"
           (Some 7) Sample.budget_state
           (add_points_to_clan_and_user Sample.monday_noon 2 "Wolves" 300
              "admin" (Some 7) Sample.budget_state).2).
  apply pair_eta. vm_compute. reflexivity.
Defined.

(** ** Stores that commands can reach *)

Lemma message_amount_pos has_bonus is_weekend content :
  1 <= message_amount has_bonus is_weekend content.
Proof.
  unfold message_amount.
  destruct has_bonus, is_weekend, (Nat.ltb 50 (String.length content));
    vm_compute; congruence.
Qed.

Lemma current_week_row_points now data :
  0 <= clan_points data → 0 <= clan_points (current_week_row now data).
Proof. intros H. unfold current_week_row. repeat case_match; simpl; lia. Qed.

Lemma clans_ok_rollover now clan data st st' :
  clans_ok st → clans st !! clan = Some data →
  clans st' = <[clan := current_week_row now data]> (clans st) →
  clans_ok st'.
Proof.
  unfold clans_ok. intros H Hc ->.
  apply map_Forall_insert_2; [|done].
  destruct (H _ _ Hc) as (Hn & Hp & Hm).
  rewrite current_week_row_max. split; [done|]. split; [|done].
  by apply current_week_row_points.
Qed.

Lemma get_user_clan_users_ok now user_id guild st :
  users_ok st → users_ok (get_user_clan now user_id guild st).2.
Proof.
  unfold users_ok. intros H. unfold get_user_clan.
  repeat case_match; simplify_eq/=; try done;
    apply map_Forall_insert_2; simpl; try done.
  eapply (H user_id); eauto.
Qed.

Lemma get_user_clan_store_ok now user_id guild st :
  store_ok st → store_ok (get_user_clan now user_id guild st).2.
Proof.
  intros (Hu & Hc & Hd).
  destruct (get_user_clan_tables now user_id guild st) as (Hcl & _ & Hdp & _).
  split; [by apply get_user_clan_users_ok|].
  unfold clans_ok, daily_ok. by rewrite Hcl, Hdp.
Qed.

(** An award of an amount that is not negative keeps the store well formed. *)
Lemma add_points_store_ok now user_id clan amount source channel_id st :
  0 <= amount →
  store_ok st →
  store_ok
    (add_points_to_clan_and_user now user_id clan amount source channel_id st).2.
Proof.
  intros Hpos (Hu & Hcl & Hd).
  destruct (clans st !! clan) as [data|] eqn:Hc;
    [|by rewrite add_points_missing_clan].
  assert (Hroll : clans_ok
            (set_clans (<[clan := current_week_row now data]> (clans st)) st))
    by by eapply clans_ok_rollover.
  destruct (Z.le_gt_cases (clan_points (current_week_row now data) + amount)
              (max_points data)) as [Hfit|Hover];
    [|by rewrite (add_points_over_cap _ _ _ _ _ _ _ _ Hc Hover)].
  destruct (check_daily_limit_entry now user_id amount
              (set_clans (<[clan := current_week_row now data]> (clans st)) st))
    as (e & Hdate & He & Hchk).
  assert (He0 : 0 <= daily_points e <= MAX_DAILY_POINTS).
  { destruct He as [->|He]; [unfold MAX_DAILY_POINTS; lia|].
    apply (Hd user_id). exact He. }
  assert (Hd2 : daily_ok
            (set_user_daily_points (<[user_id := e]> (user_daily_points st))
               (set_clans (<[clan := current_week_row now data]> (clans st)) st)))
    by by apply map_Forall_insert_2.
  destruct (check_daily_limit now user_id amount
              (set_clans (<[clan := current_week_row now data]> (clans st)) st)).1
    eqn:Hchk1.
  - rewrite (add_points_accepted _ _ _ _ _ _ _ _ Hc Hfit Hchk1).
    rewrite Hchk in Hchk1 |- *. simpl in Hchk1. apply Z.leb_le in Hchk1. simpl.
    set (st2 := set_user_daily_points _ _) in *.
    split; [|split].
    + destruct (apply_award_users now user_id clan amount source channel_id
                  (clan_points (current_week_row now data)) st2)
        as (row' & Hu' & Hp').
      unfold users_ok. rewrite Hu'. apply map_Forall_insert_2; [|done].
      rewrite Hp'. unfold lifetime_points. simpl.
      destruct (users st !! user_id) as [row|] eqn:Hrow; [|lia].
      pose proof (Hu _ _ Hrow). simpl in *. lia.
    + unfold clans_ok. rewrite apply_award_clans. simpl.
      intros c row Hrow.
      destruct (decide (clan = c)) as [<-|Hne].
      * rewrite lookup_alter_eq, lookup_insert_eq in Hrow.
        simpl in Hrow. injection Hrow as <-. simpl.
        destruct (Hcl _ _ Hc) as (Hn & Hp & Hm).
        rewrite current_week_row_max.
        pose proof (current_week_row_points now data Hp). split; [done|]. lia.
      * rewrite lookup_alter_ne in Hrow by done. by apply (Hroll c).
    + unfold daily_ok.
      rewrite (apply_award_daily _ _ _ _ _ _ _ st2 e)
        by (unfold st2; simpl; apply lookup_insert_eq).
      apply map_Forall_insert_2; [simpl; lia|exact Hd2].
  - rewrite (add_points_over_budget _ _ _ _ _ _ _ _ Hc Hfit Hchk1).
    rewrite Hchk. done.
Qed.

Lemma is_rate_limited_store_ok now user_id st :
  store_ok st → store_ok (is_rate_limited now user_id st).2.
Proof.
  unfold is_rate_limited. by destruct (defaultdict_get 0 _ _).
Qed.

Lemma on_message_store_ok now message st :
  store_ok st → store_ok (on_message now message st).2.
Proof.
  intros H. unfold on_message. cbv zeta.
  destruct (_ || _); [done|].
  pose proof (is_rate_limited_store_ok now (member_id (msg_author message)) st H)
    as H1.
  destruct (is_rate_limited now (member_id (msg_author message)) st)
    as [limited st1].
  simpl in H1. destruct limited; [done|].
  destruct (_ || _); [done|].
  match goal with
  | |- context [get_user_clan ?n ?u ?g ?s] =>
      assert (H2 : store_ok s) by done;
      pose proof (get_user_clan_store_ok n u g s H2) as H3;
      destruct (get_user_clan n u g s) as [clan st3]
  end.
  simpl in H3.
  destruct clan as [clan|]; [|done].
  destruct (msg_guild message) as [g|]; [|done].
  destruct (negb (str_truthy _)); [done|].
  destruct (utils_get_role (guild_roles g) clan) as [clan_role|]; [|done].
  destruct (get_member g (member_id (msg_author message))) as [member|]; [|done].
  destruct (negb (role_in clan_role (member_roles member))); [done|].
  match goal with
  | |- context [add_points_to_clan_and_user ?n ?u ?c ?a ?s ?ch ?s3] =>
      assert (Ha : 0 <= a)
        by (pose proof (message_amount_pos (has_bonus_role st3 (msg_author message))
                          (Z.leb 5 (weekday now)) (msg_content message)); lia);
      pose proof (add_points_store_ok n u c a s ch s3 Ha H3) as H4;
      destruct (add_points_to_clan_and_user n u c a s ch s3) as [ok st4]
  end.
  by destruct ok.
Qed.

Lemma get_clan_points_store_ok now clan st :
  store_ok st → store_ok (get_clan_points now clan st).2.
Proof.
  intros (Hu & Hcl & Hd).
  destruct (clans st !! clan) as [data|] eqn:Hc.
  - rewrite (get_clan_points_row _ _ _ _ Hc). simpl.
    split; [done|]. split; [|done]. by eapply clans_ok_rollover.
  - by rewrite get_clan_points_missing.
Qed.

Lemma can_add_to_clan_store_ok now clan amount st :
  store_ok st → store_ok (can_add_to_clan now clan amount st).2.
Proof.
  intros H. pose proof (get_clan_points_store_ok now clan st H) as H1.
  destruct (clans st !! clan) as [data|] eqn:Hc.
  - rewrite (can_add_to_clan_row _ _ _ _ _ Hc).
    by rewrite (get_clan_points_row _ _ _ _ Hc) in H1.
  - by rewrite can_add_to_clan_missing.
Qed.

Lemma addpoints_store_ok now guild user amount channel_id st :
  store_ok st → store_ok (addpoints now guild user amount channel_id st).2.
Proof.
  intros H. unfold addpoints.
  destruct (Z.leb_spec amount 0); [done|].
  destruct (Z.ltb 10000 amount); [done|].
  pose proof (get_user_clan_store_ok now (member_id user) guild st H) as H1.
  destruct (get_user_clan now (member_id user) guild st) as [clan st1].
  simpl in H1.
  destruct clan as [clan|]; [|done].
  destruct (negb (str_truthy (Some clan))); [done|].
  pose proof (can_add_to_clan_store_ok now clan amount st1 H1) as H2.
  destruct (can_add_to_clan now clan amount st1) as [ok st2].
  simpl in H2. destruct ok; simpl.
  - pose proof (add_points_store_ok now (member_id user) clan amount "admin"
                  (Some channel_id) st2 ltac:(lia) H2) as H3.
    destruct (add_points_to_clan_and_user _ _ _ _ _ _ _) as [ok st3].
    by destruct ok.
  - pose proof (get_clan_points_store_ok now clan st2 H2) as H3.
    by destruct (get_clan_points now clan st2).
Qed.

Lemma removepoints_store_ok now guild user amount channel_id st :
  store_ok st → store_ok (removepoints now guild user amount channel_id st).2.
Proof.
  intros H. unfold removepoints.
  destruct (Z.leb amount 0); [done|].
  destruct (Z.ltb 10000 amount); [done|].
  pose proof (get_user_clan_store_ok now (member_id user) guild st H) as H1.
  destruct (get_user_clan now (member_id user) guild st) as [clan st1].
  simpl in H1.
  destruct clan as [clan|]; [|done].
  destruct (negb (str_truthy (Some clan))); [done|].
  destruct (users st1 !! member_id user) as [row|] eqn:Hrow; [|done].
  destruct (Z.ltb_spec (user_points row) amount) as [Hlt|Hge]; [done|].
  destruct (get_clan_points_locked now clan _) as [cur|]; [|done].
  destruct H1 as (Hu & Hcl & Hd). simpl.
  split; [|split; [|done]].
  - apply map_Forall_insert_2; [simpl; lia|done].
  - intros c r Hr. simpl in Hr.
    destruct (decide (clan = c)) as [<-|Hne].
    + rewrite lookup_alter_eq in Hr.
      destruct (clans st1 !! clan) as [data|] eqn:Hc; [|done].
      simpl in Hr. injection Hr as <-. simpl.
      destruct (Hcl _ _ Hc) as (Hn & _ & Hm).
      split; [done|]. split; [lia|done].
    + rewrite lookup_alter_ne in Hr by done. by apply (Hcl c).
Qed.

Lemma purchase_store_ok author_id item_name st :
  store_ok st → store_ok (purchase author_id item_name st).2.
Proof.
  intros (Hu & Hcl & Hd). unfold purchase.
  destruct (find _ (shop st)) as [item|]; [|done].
  destruct (users st !! author_id) as [row|]; [|done].
  destruct (Z.ltb_spec (user_points row) (shop_cost item)); [done|].
  split; [|done]. apply map_Forall_insert_2; [simpl; lia|done].
Qed.

Lemma createclan_store_ok now clan_name role_created st :
  store_ok st → store_ok (createclan now clan_name role_created st).2.
Proof.
  intros (Hu & Hcl & Hd). unfold createclan.
  destruct (validate_clan_name clan_name) eqn:Hv; [done|].
  destruct (clans st !! clan_name); [done|].
  destruct role_created; [|done].
  split; [done|]. split; [|done].
  apply map_Forall_insert_2; [|done]. simpl. split; [done|lia].
Qed.

Lemma assignclan_store_ok now administrator author user clan_name st :
  store_ok st →
  store_ok (assignclan now administrator author user clan_name st).2.
Proof.
  intros H. unfold assignclan.
  destruct (negb _); [done|].
  destruct (clans st !! clan_name); [|done].
  pose proof (get_user_clan_store_ok now (member_id user) None st H) as H1.
  destruct (get_user_clan now (member_id user) None st) as [old_clan st1].
  simpl in H1. destruct H1 as (Hu & Hcl & Hd).
  destruct (users st1 !! member_id user) as [row|] eqn:Hrow; simpl;
    (split; [|done]); apply map_Forall_insert_2; simpl; try done.
  by apply (Hu (member_id user)).
Qed.

Lemma setweeklycap_store_ok clan cap st :
  store_ok st → store_ok (setweeklycap clan cap st).2.
Proof.
  intros (Hu & Hcl & Hd). unfold setweeklycap.
  destruct (Z.ltb_spec cap 100); [done|].
  destruct (Z.ltb_spec 20000 cap); [done|].
  simpl. split; [done|]. split; [|done].
  intros c r Hr. simpl in Hr.
  destruct (decide (clan = c)) as [<-|Hne].
  - rewrite lookup_alter_eq in Hr.
    destruct (clans st !! clan) as [data|] eqn:Hc; [|done].
    simpl in Hr. injection Hr as <-. simpl.
    destruct (Hcl _ _ Hc) as (Hn & Hp & _). split; [done|]. lia.
  - rewrite lookup_alter_ne in Hr by done. by apply (Hcl c).
Qed.

Lemma execute_store_ok st cmd : store_ok st → store_ok (execute st cmd).
Proof.
  intros H. destruct cmd; simpl.
  - by apply on_message_store_ok.
  - by apply get_user_clan_store_ok.
  - by apply addpoints_store_ok.
  - by apply removepoints_store_ok.
  - by apply purchase_store_ok.
  - unfold additem. by destruct (_ || _).
  - by apply createclan_store_ok.
  - by apply assignclan_store_ok.
  - by apply setweeklycap_store_ok.
  - done.
  - unfold setchannelmultiplier. by destruct (_ || _).
  - unfold addwhitelistrole. repeat case_match; done.
  - unfold removewhitelistrole. by case_match.
Qed.

(** X7: in every store that a sequence of commands (messages, admin
    additions and removals, purchases, clan creation and assignment, cap
    and configuration changes) produces from the empty store, no user and
    no clan holds a negative number of points, every clan has a valid name
    and a weekly maximum between 100 and 20000, and no daily tracker lies
    outside 0..500. *)
Theorem reachable_store_ok cmds :
  let st := run_commands cmds initial_state in
  (∀ user_id row, users st !! user_id = Some row → 0 <= user_points row)
  ∧ (∀ name row, clans st !! name = Some row →
       validate_clan_name name = None
       ∧ 0 <= clan_points row
       ∧ 100 <= max_points row <= 20000)
  ∧ (∀ user_id e, user_daily_points st !! user_id = Some e →
       0 <= daily_points e <= 500).
Proof.
  assert (H : ∀ st, store_ok st → store_ok (run_commands cmds st)).
  { unfold run_commands. induction cmds as [|cmd cmds IH]; intros st Hst;
      [done|].
    simpl. apply IH. by apply execute_store_ok. }
  apply (H initial_state).
  split; [|split]; apply map_Forall_empty.
Qed.

Lemma scenario_final_state :
  users Scenario.final_state !! 2
  = Some (mkUser (Some "Wolves"%string) 101 0 (Iso Sample.wednesday_noon)
                 (Iso Sample.monday_noon) 2000)
  ∧ clans Scenario.final_state !! "Wolves"%string
    = Some (mkClan 101 (Iso Sample.this_monday) 0 5000)
  ∧ (log_amount <$> logs Scenario.final_state) = [1; 120; -20].
Proof. vm_compute. repeat split. Qed.

Lemma reachable_store_ok_witness :
  0 <= user_points (mkUser (Some "Wolves"%string) 101 0
                           (Iso Sample.wednesday_noon)
                           (Iso Sample.monday_noon) 2000).
Proof.
  apply (proj1 (reachable_store_ok Scenario.commands) 2).
  apply scenario_final_state.
Defined.

(** ** The ledger along command sequences *)

Lemma ledger_ok_same_points st st' :
  (∀ u, lifetime_points u st' = lifetime_points u st) →
  logs st' = logs st → ledger_ok st → ledger_ok st'.
Proof. intros Hp Hl H u. rewrite Hp, Hl. apply H. Qed.

Lemma assignclan_ledger now administrator author user clan_name st :
  ledger_ok st →
  ledger_ok (assignclan now administrator author user clan_name st).2.
Proof.
  intros H. unfold assignclan.
  destruct (negb _); [done|].
  destruct (clans st !! clan_name); [|done].
  change (get_user_clan now (member_id user) None st)
    with ((match users st !! member_id user with
           | Some row => user_clan_name row
           | None => None
           end), st).
  cbv beta iota.
  destruct (users st !! member_id user) as [row|] eqn:Hrow; simpl;
    (apply (ledger_ok_same_points st); [|done|done]);
    intros u; unfold lifetime_points; simpl;
    (destruct (decide (member_id user = u)) as [<-|Hne];
     [rewrite lookup_insert_eq, Hrow|rewrite lookup_insert_ne by done]; done).
Qed.

Lemma execute_ledger st cmd :
  is_purchase cmd = false → ledger_ok st → ledger_ok (execute st cmd).
Proof.
  intros Hnp H. destruct cmd; simpl; try done.
  - by apply on_message_ledger.
  - by apply get_user_clan_ledger.
  - by apply addpoints_ledger.
  - by apply removepoints_ledger.
  - unfold additem. by destruct (_ || _).
  - unfold createclan. repeat case_match; done.
  - by apply assignclan_ledger.
  - unfold setweeklycap. by case_match.
  - unfold setchannelmultiplier. by case_match.
  - unfold addwhitelistrole. repeat case_match; done.
  - unfold removewhitelistrole. by case_match.
Qed.

(** X8: along every sequence of commands that holds no shop purchase, a
    ledger that balances stays balanced: for every user the logged amounts
    sum to the stored lifetime points after the last command. *)
Theorem ledger_kept_without_purchase cmds st :
  ledger_ok st →
  forallb (λ cmd, negb (is_purchase cmd)) cmds = true →
  ∀ user_id,
    log_sum user_id (logs (run_commands cmds st))
    = lifetime_points user_id (run_commands cmds st).
Proof.
  intros H Hcmds. change (ledger_ok (run_commands cmds st)).
  revert st H. unfold run_commands.
  induction cmds as [|cmd cmds IH]; intros st H; [done|].
  simpl in Hcmds. apply andb_true_iff in Hcmds as [Hcmd Hrest].
  simpl. apply IH; [done|].
  apply execute_ledger; [by apply negb_true_iff|done].
Qed.

Lemma ledger_kept_without_purchase_witness :
  log_sum 2 (logs (run_commands Scenario.commands initial_state))
  = lifetime_points 2 (run_commands Scenario.commands initial_state).
Proof.
  apply (ledger_kept_without_purchase Scenario.commands initial_state).
  - intros u. reflexivity.
  - vm_compute. reflexivity.
Defined.

(** ** What a removal and a purchase write *)

Lemma get_clan_points_locked_Some now clan st cur :
  get_clan_points_locked now clan st = Some cur →
  ∃ data, clans st !! clan = Some data
          ∧ clan_points data = cur
          ∧ ∀ t, last_week_start data = Iso t → get_week_start now <= t.
Proof.
  unfold get_clan_points_locked.
  destruct (clans st !! clan) as [data|]; [|done].
  destruct (last_week_start data) as [| |t] eqn:Hl.
  - intros [= <-]. exists data. split; [done|]. split; [done|].
    intros t Ht. congruence.
  - intros [= <-]. exists data. split; [done|]. split; [done|].
    intros t Ht. congruence.
  - destruct (Z.ltb_spec t (get_week_start now)); [done|].
    intros [= <-]. exists data. split; [done|]. split; [done|].
    intros t' Ht. congruence.
Qed.

(** X9: an accepted admin removal takes an amount between 1 and 10000 that
    the user holds, lowers the user's points by it and appends one log row
    of the negated amount with source [admin_removal].  It is accepted
    only for a clan whose stored week is the current one (or has no week
    mark); that clan's points become the stored points less the amount,
    or 0 when that would be negative, the rest of its row and every other
    clan staying as they were. *)
Theorem removepoints_accepted_effect now guild user amount channel_id st st' :
  removepoints now guild user amount channel_id st = (RemoveOk, st') →
  0 < amount <= 10000
  ∧ amount <= lifetime_points (member_id user) st
  ∧ lifetime_points (member_id user) st'
    = lifetime_points (member_id user) st - amount
  ∧ logs st'
    = logs st ++ [mkLog (member_id user) (- amount) "admin_removal" now
                        (Some channel_id)]
  ∧ ∃ clan data,
      (get_user_clan now (member_id user) guild st).1 = Some clan
      ∧ clans st !! clan = Some data
      ∧ (∀ t, last_week_start data = Iso t → get_week_start now <= t)
      ∧ clans st' !! clan
        = Some (mkClan (Z.max 0 (clan_points data - amount))
                       (last_week_start data) (last_week_points data)
                       (max_points data))
      ∧ ∀ c, c ≠ clan → clans st' !! c = clans st !! c.
Proof.
  unfold removepoints.
  destruct (Z.leb_spec amount 0); [done|].
  destruct (Z.ltb_spec 10000 amount); [done|].
  pose proof (get_user_clan_lifetime now (member_id user) guild st
                (member_id user)) as Hlife.
  pose proof (get_user_clan_tables now (member_id user) guild st)
    as (Hclans & Hlogs & _).
  destruct (get_user_clan now (member_id user) guild st) as [clan st1].
  simpl in Hlife, Hclans, Hlogs.
  destruct clan as [clan|]; [|done].
  destruct (negb (str_truthy (Some clan))); [done|].
  destruct (users st1 !! member_id user) as [row|] eqn:Hrow; [|done].
  assert (Hpts : lifetime_points (member_id user) st = user_points row)
    by (rewrite <- Hlife; unfold lifetime_points; by rewrite Hrow).
  destruct (Z.ltb_spec (user_points row) amount); [done|].
  destruct (get_clan_points_locked now clan _) as [cur|] eqn:Hcur; [|done].
  apply get_clan_points_locked_Some in Hcur as (data & Hc & <- & Hweek).
  simpl in Hc. intros [= <-]. simpl.
  split; [lia|]. split; [lia|]. split; [|split].
  - unfold lifetime_points at 1. simpl. rewrite lookup_insert_eq. simpl. lia.
  - by rewrite Hlogs.
  - exists clan, data. split; [done|]. split; [by rewrite <- Hclans|].
    split; [done|]. split.
    + by rewrite lookup_alter_eq, Hc.
    + intros c Hne. rewrite lookup_alter_ne by done. by rewrite Hclans.
Qed.

Lemma removepoints_accepted_effect_witness :
  lifetime_points 2
    (removepoints Sample.monday_noon (Some Sample.guild) Sample.bob 40 7
       Sample.shop_state).2
  = lifetime_points 2 Sample.shop_state - 40.
Proof.
  apply (removepoints_accepted_effect Sample.monday_noon (Some Sample.guild)
           Sample.bob 40 7 Sample.shop_state
           (removepoints Sample.monday_noon (Some Sample.guild) Sample.bob 40 7
              Sample.shop_state).2).
  apply pair_eta. vm_compute. reflexivity.
Defined.

(** X24: a removal that passes every check but meets a clan whose stored
    week is past is not carried out: the rollover cannot be written inside
    the open transaction, the reply is the error, and the store is the one
    [get_user_clan] left, with the user's points, the clan table (not
    rolled over) and the log as before. *)
Theorem removepoints_stale_week now guild user amount channel_id st
    clan row data t :
  0 < amount <= 10000 →
  (get_user_clan now (member_id user) guild st).1 = Some clan →
  clan ≠ ""%string →
  users st !! member_id user = Some row →
  amount <= user_points row →
  clans st !! clan = Some data →
  last_week_start data = Iso t →
  t < get_week_start now →
  let r := removepoints now guild user amount channel_id st in
  r = (RemoveError, (get_user_clan now (member_id user) guild st).2)
  ∧ lifetime_points (member_id user) r.2 = user_points row
  ∧ clans r.2 = clans st
  ∧ logs r.2 = logs st.
Proof.
  intros Hamount Hclan Hname Hrow Hle Hc Hl Hstale r.
  assert (Hrun : r = (RemoveError,
                      (get_user_clan now (member_id user) guild st).2)).
  { unfold r, removepoints.
    destruct (Z.leb_spec amount 0); [lia|].
    destruct (Z.ltb_spec 10000 amount); [lia|].
    destruct (get_user_clan_row now (member_id user) guild st _ _ Hrow)
      as (row1 & Hrow1 & Hp1).
    pose proof (get_user_clan_tables now (member_id user) guild st)
      as (Hclans & _).
    destruct (get_user_clan now (member_id user) guild st) as [clan' st1].
    simpl in Hclan, Hrow1, Hclans |- *. subst clan'.
    rewrite bool_decide_eq_false_2 by done. simpl.
    rewrite Hrow1.
    destruct (Z.ltb_spec (user_points row1) amount); [lia|].
    unfold get_clan_points_locked. simpl. rewrite Hclans, Hc, Hl.
    destruct (Z.ltb_spec t (get_week_start now)); [done|lia]. }
  split; [done|]. rewrite Hrun. simpl.
  destruct (get_user_clan_tables now (member_id user) guild st)
    as (Hclans & Hlogs & _).
  split; [|done].
  rewrite get_user_clan_lifetime. unfold lifetime_points. by rewrite Hrow.
Qed.

Lemma removepoints_stale_week_witness :
  removepoints (Sample.monday_noon + 7 * US_PER_DAY) (Some Sample.guild)
    Sample.bob 40 7 Sample.shop_state
  = (RemoveError,
     (get_user_clan (Sample.monday_noon + 7 * US_PER_DAY) 2
        (Some Sample.guild) Sample.shop_state).2).
Proof.
  apply (removepoints_stale_week (Sample.monday_noon + 7 * US_PER_DAY)
           (Some Sample.guild) Sample.bob 40 7 Sample.shop_state "Wolves"
           (mkUser (Some "Wolves"%string) 100 0 (Iso Sample.this_monday)
                   (Iso Sample.this_monday) 2000)
           (mkClan 100 (Iso Sample.this_monday) 0 20000)
           Sample.this_monday).
  - lia.
  - vm_compute. reflexivity.
  - discriminate.
  - reflexivity.
  - simpl. lia.
  - reflexivity.
  - reflexivity.
  - vm_compute. reflexivity.
Defined.

(** X10: a purchase never touches the clan table or another user's row;
    unless the reply is the purchase itself the store is as before; and a
    purchase charges the cost of the first shop row of that name, to a
    buyer who holds at least the cost, so that the points left are never
    negative. *)
Theorem purchase_effect author_id item_name st :
  let r := purchase author_id item_name st in
  clans r.2 = clans st
  ∧ (∀ u, u ≠ author_id → users r.2 !! u = users st !! u)
  ∧ ((∀ cost, r.1 ≠ Purchased cost) → r.2 = st)
  ∧ (∀ cost, r.1 = Purchased cost →
       (shop_cost <$> find (λ item, bool_decide (shop_name item = item_name))
                           (shop st)) = Some cost
       ∧ cost <= lifetime_points author_id st
       ∧ lifetime_points author_id r.2 = lifetime_points author_id st - cost
       ∧ 0 <= lifetime_points author_id r.2).
Proof.
  unfold purchase.
  destruct (find _ (shop st)) as [item|]; [|by repeat split].
  destruct (users st !! author_id) as [row|] eqn:Hrow; [|by repeat split].
  destruct (Z.ltb_spec (user_points row) (shop_cost item)); [by repeat split|].
  simpl. split; [done|]. split; [|split].
  - intros u Hne. by rewrite lookup_insert_ne.
  - intros Hno. by destruct (Hno (shop_cost item)).
  - intros cost [= <-]. unfold lifetime_points. simpl.
    rewrite lookup_insert_eq, Hrow. simpl. repeat split; lia.
Qed.

Lemma purchase_effect_witness :
  0 <= lifetime_points 2 (purchase 2 "Sword" Sample.shop_state).2.
Proof.
  apply (proj2 (proj2 (proj2
           (purchase_effect 2 "Sword" Sample.shop_state))) 30).
  vm_compute. reflexivity.
Defined.

(** ** Clan membership *)

(** When the stored assignment already is the clan of the member's first
    clan role, the call returns it and writes nothing. *)
Lemma get_user_clan_stored now user_id g member role st :
  get_member g user_id = Some member →
  find (λ role, bool_decide (is_Some (clans st !! role_name role)))
       (member_roles member) = Some role →
  (users st !! user_id) ≫= user_clan_name = Some (role_name role) →
  get_user_clan now user_id (Some g) st = (Some (role_name role), st).
Proof.
  intros Hm Hfind Hstored. unfold get_user_clan. rewrite Hm, Hfind.
  destruct (users st !! user_id) as [row|]; simpl in Hstored; [|done].
  rewrite Hstored. by destruct (decide _).
Qed.

Lemma get_user_clan_result_stored now user_id guild st :
  (get_user_clan now user_id guild st).1
  = (users (get_user_clan now user_id guild st).2 !! user_id) ≫= user_clan_name.
Proof.
  unfold get_user_clan.
  destruct guild as [g|]; [|simpl; by destruct (users st !! user_id)].
  destruct (get_member g user_id) as [member|];
    [|simpl; by destruct (users st !! user_id)].
  destruct (find _ (member_roles member)) as [role|];
    [|simpl; by destruct (users st !! user_id)].
  destruct (decide _) as [Hne|Heq].
  - destruct (users st !! user_id); simpl; by rewrite lookup_insert_eq.
  - apply dec_stable in Heq. simpl.
    destruct (users st !! user_id); simpl in *; done.
Qed.

(** X11: [get_user_clan] returns the assignment that is stored once it has
    run; a second call, at any instant, returns the same clan and writes
    nothing.  Either the stored assignment was returned untouched, or the
    member holds a role that names an existing clan and that name is both
    returned and stored.  Nobody's points change. *)
Theorem get_user_clan_reconciles now now' user_id guild st :
  let r := get_user_clan now user_id guild st in
  r.1 = (users r.2 !! user_id) ≫= user_clan_name
  ∧ get_user_clan now' user_id guild r.2 = r
  ∧ ((r.1 = (users st !! user_id) ≫= user_clan_name ∧ r.2 = st)
     ∨ ∃ g member role,
         guild = Some g ∧ get_member g user_id = Some member
         ∧ role ∈ member_roles member
         ∧ is_Some (clans st !! role_name role)
         ∧ r.1 = Some (role_name role))
  ∧ ∀ u, lifetime_points u r.2 = lifetime_points u st.
Proof.
  intros r.
  pose proof (get_user_clan_result_stored now user_id guild st) as Hstored.
  pose proof (get_user_clan_tables now user_id guild st) as (Hclans & _).
  fold r in Hstored, Hclans. simpl in Hclans.
  split; [done|]. split; [|split]; [| |intros u; apply get_user_clan_lifetime].
  - destruct guild as [g|]; [|done].
    destruct (get_member g user_id) as [member|] eqn:Hm;
      [|unfold r, get_user_clan; by rewrite Hm].
    destruct (find (λ role, bool_decide (is_Some (clans st !! role_name role)))
                   (member_roles member)) as [role|] eqn:Hfind.
    + assert (Hr : r.1 = Some (role_name role)).
      { unfold r, get_user_clan. rewrite Hm, Hfind.
        destruct (decide _); [|done]. by destruct (users st !! user_id). }
      rewrite (get_user_clan_stored now' user_id g member role r.2 Hm).
      * symmetry. by apply pair_eta.
      * by rewrite Hclans.
      * by rewrite <- Hstored.
    + unfold r, get_user_clan. rewrite Hm, Hfind. simpl. by rewrite ?Hm, ?Hfind.
  - unfold r, get_user_clan.
    destruct guild as [g|]; [|by left].
    destruct (get_member g user_id) as [member|] eqn:Hm; [|by left].
    destruct (find _ (member_roles member)) as [role|] eqn:Hfind; [|by left].
    right. exists g, member, role.
    apply find_some in Hfind as [Hin Hclan].
    apply bool_decide_eq_true in Hclan.
    split; [done|]. split; [done|]. split; [by apply list_elem_of_In|].
    split; [done|].
    destruct (decide _); [|done]. by destruct (users st !! user_id).
Qed.

Lemma get_user_clan_reconciles_witness :
  (get_user_clan Sample.monday_noon 2 (Some Sample.guild) Sample.base_state).1
  = Some "Wolves"%string.
Proof.
  destruct (get_user_clan_reconciles Sample.monday_noon Sample.monday_noon 2
              (Some Sample.guild) Sample.base_state) as (H1 & _).
  rewrite H1. vm_compute. reflexivity.
Defined.

(** ** Clan names *)

Lemma str_remove_chars c s :
  String.list_ascii_of_string (str_remove c s)
  = filter (λ a, a ≠ c) (String.list_ascii_of_string s).
Proof.
  induction s as [|a s IH]; [done|]. simpl. rewrite filter_cons.
  destruct (decide (a = c)) as [->|Hne].
  - rewrite bool_decide_eq_true_2 by done.
    by rewrite decide_False by (intros H; by apply H).
  - rewrite bool_decide_eq_false_2 by done.
    rewrite decide_True by done. simpl. by rewrite IH.
Qed.

Lemma isalnum_chars s :
  isalnum s = true
  ↔ String.list_ascii_of_string s ≠ []
    ∧ ∀ a, a ∈ String.list_ascii_of_string s → is_alnum_char a = true.
Proof.
  unfold isalnum. rewrite andb_true_iff, negb_true_iff, bool_decide_eq_false.
  rewrite forallb_forall.
  assert (Hempty : s = ""%string ↔ String.list_ascii_of_string s = [])
    by (destruct s; simpl; split; congruence).
  rewrite Hempty. split; intros [H1 H2]; (split; [done|]);
    intros a Ha; apply H2; by apply list_elem_of_In.
Qed.

(** X12: a clan name is accepted exactly when it has at most 50 characters,
    each of them a letter, a digit, a space, a hyphen or an underscore, and
    at least one of them a letter or a digit.  In particular the empty name
    and names made of separators only are refused. *)
Theorem validate_clan_name_accepts name :
  validate_clan_name name = None
  ↔ (String.length name <= 50)%nat
    ∧ (∀ a, a ∈ String.list_ascii_of_string name →
            is_alnum_char a = true
            ∨ a = " "%char ∨ a = "-"%char ∨ a = "_"%char)
    ∧ ∃ a, a ∈ String.list_ascii_of_string name ∧ is_alnum_char a = true.
Proof.
  unfold validate_clan_name.
  destruct (Nat.ltb_spec 50 (String.length name)) as [Hlong|Hshort].
  { split; [done|]. intros (H & _). lia. }
  destruct (isalnum _) eqn:Hal; simpl.
  - split; [intros _|done]. split; [done|].
    apply isalnum_chars in Hal as [Hne Hall].
    rewrite !str_remove_chars in Hne, Hall. split.
    + intros a Ha.
      destruct (decide (a = " "%char)) as [|H1]; [auto|].
      destruct (decide (a = "-"%char)) as [|H2]; [auto|].
      destruct (decide (a = "_"%char)) as [|H3]; [auto|].
      left. apply Hall. by rewrite !list_elem_of_filter.
    + destruct (filter _ (filter _ (filter _ _))) as [|a l] eqn:Hl; [done|].
      exists a. assert (Ha : a ∈ a :: l) by left.
      split; [|by apply Hall].
      rewrite <- Hl in Ha. rewrite !list_elem_of_filter in Ha. tauto.
  - split; [done|]. intros (_ & Hall & a & Ha & Halnum). exfalso.
    apply not_true_iff_false in Hal. apply Hal.
    apply isalnum_chars. rewrite !str_remove_chars. split.
    + assert (Hin : a ∈ filter (λ a, a ≠ "_"%char)
                         (filter (λ a, a ≠ "-"%char)
                            (filter (λ a, a ≠ " "%char)
                               (String.list_ascii_of_string name)))).
      { rewrite !list_elem_of_filter.
        repeat split; try done; intros ->; vm_compute in Halnum; congruence. }
      intros Hnil. rewrite Hnil in Hin. by apply elem_of_nil in Hin.
    + intros b Hb. rewrite !list_elem_of_filter in Hb.
      destruct Hb as (H3 & H2 & H1 & Hb).
      destruct (Hall b Hb) as [|[|[|]]]; done.
Qed.

Lemma validate_clan_name_examples :
  validate_clan_name "Iron-Wolves_2" = None
  ∧ validate_clan_name "Iron/Wolves" = Some NameBadCharacters
  ∧ validate_clan_name "" = Some NameBadCharacters
  ∧ validate_clan_name "- _" = Some NameBadCharacters.
Proof. vm_compute. repeat split. Qed.

Lemma validate_clan_name_accepts_witness :
  (String.length "Iron-Wolves_2" <= 50)%nat.
Proof.
  apply (proj1 (validate_clan_name_accepts "Iron-Wolves_2")).
  vm_compute. reflexivity.
Defined.

(** ** Creating and assigning clans *)

(** X13: [createclan] never rewrites the row of an existing clan and never
    touches users or logs.  It creates the clan exactly when the name is
    valid, no clan of that name exists and the platform created the role;
    otherwise the store is as before.  A created clan reads as 0 points
    for the rest of its week, with no write, and accepts an amount exactly
    when the amount is at most 20000. *)
Theorem createclan_effect now now' clan_name role_created st :
  let r := createclan now clan_name role_created st in
  (∀ c row, clans st !! c = Some row → clans r.2 !! c = Some row)
  ∧ users r.2 = users st ∧ logs r.2 = logs st
  ∧ (r.1 = CreateOk
     ↔ validate_clan_name clan_name = None
       ∧ clans st !! clan_name = None ∧ role_created = true)
  ∧ (r.1 ≠ CreateOk → r.2 = st)
  ∧ (r.1 = CreateOk → get_week_start now' = get_week_start now →
     get_clan_points now' clan_name r.2 = (Some 0, r.2)
     ∧ ∀ amount,
         can_add_to_clan now' clan_name amount r.2
         = (Z.leb amount 20000, r.2)).
Proof.
  unfold createclan.
  destruct (validate_clan_name clan_name) as [e|] eqn:Hv;
    [simpl; repeat split; try done; by intros (? & _)|].
  destruct (clans st !! clan_name) as [old|] eqn:Hc;
    [simpl; repeat split; try done; by intros (_ & ? & _)|].
  destruct role_created;
    [|simpl; repeat split; try done; by intros (_ & _ & ?)].
  simpl. split; [|split; [done|split; [done|split; [done|split; [done|]]]]].
  - intros c row Hrow. rewrite lookup_insert_ne; [done|congruence].
  - intros _ Hweek.
    set (st1 := set_clans _ st).
    assert (Hrow : clans st1 !! clan_name
                   = Some (mkClan 0 (Iso (get_week_start now)) 0 20000))
      by apply lookup_insert_eq.
    assert (Hread : get_clan_points now' clan_name st1 = (Some 0, st1))
      by (apply (get_clan_points_current now' clan_name st1 _
                   (get_week_start now) Hrow eq_refl); lia).
    split; [done|]. intros amount. unfold can_add_to_clan.
    by rewrite Hread, Hrow.
Qed.

Lemma createclan_effect_witness :
  get_clan_points Sample.wednesday_noon "Bears"
    (createclan Sample.monday_noon "Bears" true Sample.base_state).2
  = (Some 0, (createclan Sample.monday_noon "Bears" true Sample.base_state).2).
Proof.
  apply (createclan_effect Sample.monday_noon Sample.wednesday_noon "Bears"
           true Sample.base_state).
  - vm_compute. reflexivity.
  - vm_compute. reflexivity.
Defined.

Lemma get_whitelist_roles_elem role st :
  role ∈ get_whitelist_roles st
  ↔ ∃ key, config st !! key = Some role ∧ is_whitelist_key key = true.
Proof.
  unfold get_whitelist_roles. rewrite list_elem_of_fmap. split.
  - intros ([key v] & -> & Hin).
    apply elem_of_map_to_list in Hin.
    apply map_lookup_filter_Some in Hin as [Hl Hk]. eauto.
  - intros (key & Hl & Hk). exists (key, role). split; [done|].
    apply elem_of_map_to_list. by apply map_lookup_filter_Some.
Qed.

(** X14: a caller may assign clans exactly when he is an administrator or
    holds a role whose name is the value of a configuration row with a key
    [LIKE 'whitelist_role_%']. *)
Theorem is_user_whitelisted_spec administrator user st :
  is_user_whitelisted administrator user st = true
  ↔ administrator = true
    ∨ ∃ role key,
        role ∈ member_roles user
        ∧ config st !! key = Some (role_name role)
        ∧ is_whitelist_key key = true.
Proof.
  unfold is_user_whitelisted. destruct administrator; [by split; auto|].
  assert (Hex : existsb (λ role_name0,
                           bool_decide (role_name0 ∈ role_name <$> member_roles user))
                        (get_whitelist_roles st) = true
                ↔ ∃ role key,
                    role ∈ member_roles user
                    ∧ config st !! key = Some (role_name role)
                    ∧ is_whitelist_key key = true).
  { rewrite existsb_exists. split.
    - intros (name & Hin & Hhas). apply bool_decide_eq_true in Hhas.
      apply list_elem_of_In, get_whitelist_roles_elem in Hin as (key & Hl & Hk).
      apply list_elem_of_fmap in Hhas as (role & -> & Hrole). eauto.
    - intros (role & key & Hrole & Hl & Hk). exists (role_name role). split.
      + apply list_elem_of_In, get_whitelist_roles_elem. eauto.
      + apply bool_decide_eq_true, list_elem_of_fmap. eauto. }
  destruct (get_whitelist_roles st) as [|w ws] eqn:Hw.
  - split; [done|]. intros [|H]; [done|]. apply Hex in H. done.
  - rewrite Hex. split; [auto|]. by intros [|].
Qed.

Lemma is_user_whitelisted_spec_witness :
  is_user_whitelisted false Sample.alice
    (addwhitelistrole Sample.monday_noon Sample.guild "VIP" Sample.base_state).2
  = true.
Proof.
  apply (is_user_whitelisted_spec false Sample.alice).
  right. exists Sample.vip_role, "whitelist_role_1704110400"%string.
  split; [|split].
  - right. left.
  - vm_compute. reflexivity.
  - vm_compute. reflexivity.
Defined.

(** X15: [assignclan] succeeds exactly when the caller may assign clans and
    the clan exists; otherwise the store is as before.  After a success the
    user's stored clan is the given one, and that is what [get_user_clan]
    returns without a guild; nobody's points, no clan and no log row
    change. *)
Theorem assignclan_effect now now' administrator author user clan_name st :
  let r := assignclan now administrator author user clan_name st in
  (r.1 = AssignOk
   ↔ is_user_whitelisted administrator author st = true
     ∧ is_Some (clans st !! clan_name))
  ∧ (r.1 ≠ AssignOk → r.2 = st)
  ∧ (r.1 = AssignOk →
     get_user_clan now' (member_id user) None r.2 = (Some clan_name, r.2))
  ∧ (∀ u, lifetime_points u r.2 = lifetime_points u st)
  ∧ clans r.2 = clans st ∧ logs r.2 = logs st.
Proof.
  unfold assignclan.
  destruct (is_user_whitelisted administrator author st); simpl;
    [|repeat split; try done; by intros (? & _)].
  destruct (clans st !! clan_name) as [row|] eqn:Hc;
    [|repeat split; try done; by intros (_ & [? ?])].
  change (get_user_clan now (member_id user) None st)
    with ((match users st !! member_id user with
           | Some row => user_clan_name row
           | None => None
           end), st).
  cbv beta iota.
  assert (Hlife : ∀ row' u,
            user_points row' = lifetime_points (member_id user) st →
            lifetime_points u
              (set_users (<[member_id user := row']> (users st)) st)
            = lifetime_points u st).
  { intros row' u Hp. unfold lifetime_points at 1. simpl.
    destruct (decide (member_id user = u)) as [<-|Hne].
    - by rewrite lookup_insert_eq.
    - by rewrite lookup_insert_ne. }
  destruct (users st !! member_id user) as [urow|] eqn:Hrow; simpl;
    (split; [split; [eauto|done]|]); (split; [done|]);
    (split; [intros _; unfold get_user_clan; simpl;
             by rewrite lookup_insert_eq|]);
    (split; [|done]); intros u; apply Hlife; simpl;
    unfold lifetime_points; by rewrite Hrow.
Qed.

Lemma assignclan_effect_witness :
  get_user_clan Sample.wednesday_noon 2 None
    (assignclan Sample.monday_noon true Sample.alice Sample.bob "Wolves"
       Sample.base_state).2
  = (Some "Wolves"%string,
     (assignclan Sample.monday_noon true Sample.alice Sample.bob "Wolves"
        Sample.base_state).2).
Proof.
  apply (assignclan_effect Sample.monday_noon Sample.wednesday_noon true
           Sample.alice Sample.bob "Wolves" Sample.base_state).
  vm_compute. reflexivity.
Defined.

(** ** The whitelist *)

Lemma list_ascii_of_string_app s1 s2 :
  String.list_ascii_of_string (s1 +:+ s2)
  = String.list_ascii_of_string s1 ++ String.list_ascii_of_string s2.
Proof. induction s1 as [|a s1 IH]; simpl; [done|by rewrite IH]. Qed.

Lemma like_percent s : like ["%"%char] s = true.
Proof.
  induction s as [|a s IH]; [done|].
  simpl in *. exact IH.
Qed.

(** Every key that [addwhitelistrole] builds is found by the [LIKE]. *)
Lemma whitelist_key_is_whitelist_key now :
  is_whitelist_key (whitelist_key now) = true.
Proof.
  unfold is_whitelist_key, whitelist_key.
  rewrite list_ascii_of_string_app.
  generalize (String.list_ascii_of_string (pretty (Z.quot now US_PER_SECOND))).
  intros rest. apply (like_percent rest).
Qed.

(** X16: a role that [addwhitelistrole] reports as added is on the
    whitelist afterwards and no configuration row that existed is
    changed; with any other reply the store is as before.  The key of the
    new row is built from the second of the call: a different role added
    within the same second is refused with the error reply. *)
Theorem addwhitelistrole_effect now now' guild guild' role_name other st :
  let r := addwhitelistrole now guild role_name st in
  (r.1 ≠ WhitelistAdded → r.2 = st)
  ∧ (r.1 = WhitelistAdded →
     role_name ∈ get_whitelist_roles r.2
     ∧ (∀ key v, config st !! key = Some v → config r.2 !! key = Some v)
     ∧ (Z.quot now' US_PER_SECOND = Z.quot now US_PER_SECOND →
        other ≠ role_name →
        other ∉ get_whitelist_roles st →
        is_Some (utils_get_role (guild_roles guild') other) →
        addwhitelistrole now' guild' other r.2 = (WhitelistError, r.2))).
Proof.
  cbv zeta.
  destruct (addwhitelistrole now guild role_name st) as [reply st1] eqn:Hrun.
  simpl. unfold addwhitelistrole in Hrun.
  destruct (utils_get_role (guild_roles guild) role_name);
    [|injection Hrun as <- <-; by split].
  destruct (bool_decide (role_name ∈ get_whitelist_roles st));
    [injection Hrun as <- <-; by split|].
  destruct (config st !! whitelist_key now) eqn:Hkey;
    [injection Hrun as <- <-; by split|].
  injection Hrun as <- <-. split; [done|]. intros _.
  set (st1 := set_config _ st).
  assert (Hin : role_name ∈ get_whitelist_roles st1).
  { apply get_whitelist_roles_elem. exists (whitelist_key now).
    split; [apply lookup_insert_eq|apply whitelist_key_is_whitelist_key]. }
  split; [done|]. split.
  - intros key v Hl. simpl. rewrite lookup_insert_ne; [done|congruence].
  - intros Hsec Hne Hout [role Hrole].
    unfold addwhitelistrole. rewrite Hrole.
    rewrite bool_decide_eq_false_2.
    + assert (Hk : whitelist_key now' = whitelist_key now)
        by (unfold whitelist_key; by rewrite Hsec).
      rewrite Hk. simpl. by rewrite lookup_insert_eq.
    + intros Hother. apply get_whitelist_roles_elem in Hother
        as (key & Hl & Hk).
      simpl in Hl. destruct (decide (whitelist_key now = key)) as [<-|Hkn].
      * rewrite lookup_insert_eq in Hl. congruence.
      * rewrite lookup_insert_ne in Hl by done.
        apply Hout, get_whitelist_roles_elem. eauto.
Qed.

Lemma addwhitelistrole_effect_witness :
  "VIP"%string
  ∈ get_whitelist_roles
      (addwhitelistrole Sample.monday_noon Sample.guild "VIP"
         Sample.base_state).2.
Proof.
  apply (addwhitelistrole_effect Sample.monday_noon Sample.monday_noon
           Sample.guild Sample.guild "VIP" "Wolves" Sample.base_state).
  vm_compute. reflexivity.
Defined.

(** X17: after [removewhitelistrole] the role is not on the whitelist, every
    other role is on it exactly when it was before, and every row whose
    key is not a whitelist key (the bonus role among them) is as before;
    the reply is the removal exactly when the role was on the whitelist. *)
Theorem removewhitelistrole_effect role_name st :
  let r := removewhitelistrole role_name st in
  (role_name ∉ get_whitelist_roles r.2)
  ∧ (∀ other, other ≠ role_name →
       (other ∈ get_whitelist_roles r.2 ↔ other ∈ get_whitelist_roles st))
  ∧ (∀ key, is_whitelist_key key = false → config r.2 !! key = config st !! key)
  ∧ get_bonus_role r.2 = get_bonus_role st
  ∧ (r.1 = WhitelistRemoved ↔ role_name ∈ get_whitelist_roles st)
  ∧ (r.1 = WhitelistRemoved ∨ r.1 = WhitelistNotListed).
Proof.
  unfold removewhitelistrole.
  set (P := λ kv : string * string, is_whitelist_key kv.1 = true ∧ kv.2 = role_name).
  destruct (bool_decide (filter P (config st) = ∅)) eqn:Hd.
  - apply bool_decide_eq_true in Hd.
    assert (Hout : role_name ∉ get_whitelist_roles st).
    { intros Hin. apply get_whitelist_roles_elem in Hin as (key & Hl & Hk).
      assert (Hf : filter P (config st) !! key = Some role_name)
        by by apply map_lookup_filter_Some.
      rewrite Hd in Hf. by rewrite lookup_empty in Hf. }
    simpl. repeat split; try done; auto.
  - apply bool_decide_eq_false in Hd. simpl.
    assert (Hlook : ∀ key v,
              filter (λ kv, ¬ P kv) (config st) !! key = Some v
              ↔ config st !! key = Some v
                ∧ ¬ (is_whitelist_key key = true ∧ v = role_name)).
    { intros key v. by rewrite map_lookup_filter_Some. }
    assert (Hin : role_name ∈ get_whitelist_roles st).
    { apply map_choose in Hd as (key & v & Hf).
      apply map_lookup_filter_Some in Hf as (Hl & Hk & Hv). simpl in *.
      subst v. apply get_whitelist_roles_elem. eauto. }
    split; [|split; [|split; [|split; [|split]]]]; try done; auto.
    + intros Hr. apply get_whitelist_roles_elem in Hr as (key & Hl & Hk).
      simpl in Hl. apply Hlook in Hl as [_ Hno]. by apply Hno.
    + intros other Hne. rewrite !get_whitelist_roles_elem. simpl.
      split; intros (key & Hl & Hk); exists key; (split; [|done]).
      * by apply Hlook in Hl as [Hl _].
      * apply Hlook. split; [done|]. by intros [_ ?].
    + intros key Hk. apply option_eq. intros v. split; intros Hl.
      * by apply Hlook in Hl as [? _].
      * apply Hlook. split; [done|]. intros [Hk' _]. congruence.
    + unfold get_bonus_role. simpl. apply option_eq. intros v.
      split; intros Hl.
      * by apply Hlook in Hl as [? _].
      * apply Hlook. split; [done|]. intros [Hk' _].
        vm_compute in Hk'. congruence.
Qed.

Lemma removewhitelistrole_effect_witness :
  "VIP"%string
  ∈ get_whitelist_roles
      (removewhitelistrole "Wolves"
         (addwhitelistrole Sample.monday_noon Sample.guild "VIP"
            Sample.base_state).2).2.
Proof.
  apply (proj1 (proj2 (removewhitelistrole_effect "Wolves"
                         (addwhitelistrole Sample.monday_noon Sample.guild
                            "VIP" Sample.base_state).2))
           "VIP"%string).
  - discriminate.
  - apply get_whitelist_roles_elem.
    exists "whitelist_role_1704110400"%string. vm_compute. split; reflexivity.
Defined.

(** ** Configuration *)

Lemma current_week_row_points_cap now p l w m m' :
  clan_points (current_week_row now (mkClan p l w m))
  = clan_points (current_week_row now (mkClan p l w m')).
Proof. unfold current_week_row. simpl. repeat case_match; done. Qed.

(** X18: [setweeklycap] stores a maximum exactly when it lies between 100
    and 20000; a refusal, and an acceptance for a clan that does not exist,
    leave the store as it was.  An accepted maximum replaces the clan's
    maximum and nothing else, and from then on an award is let through by
    the clan gate exactly when the current week's points plus the amount
    do not exceed it, also when the points already lie above it. *)
Theorem setweeklycap_effect now clan cap st :
  let r := setweeklycap clan cap st in
  (r.1 = true ↔ 100 <= cap <= 20000)
  ∧ (r.1 = false → r.2 = st)
  ∧ (clans st !! clan = None → r.2 = st)
  ∧ users r.2 = users st ∧ logs r.2 = logs st
  ∧ (∀ c, c ≠ clan → clans r.2 !! c = clans st !! c)
  ∧ (r.1 = true → ∀ data, clans st !! clan = Some data →
     clans r.2 !! clan
     = Some (mkClan (clan_points data) (last_week_start data)
                    (last_week_points data) cap)
     ∧ ∀ amount,
         (can_add_to_clan now clan amount r.2).1
         = Z.leb (clan_points (current_week_row now data) + amount) cap).
Proof.
  unfold setweeklycap.
  destruct (Z.ltb_spec cap 100);
    [simpl; repeat split; try done; lia|].
  destruct (Z.ltb_spec 20000 cap);
    [simpl; repeat split; try done; lia|].
  simpl. split; [split; [lia|done]|]. split; [done|]. split.
  { intros Hc.
    assert (Hsame : alter (λ c, mkClan (clan_points c) (last_week_start c)
                                       (last_week_points c) cap)
                          clan (clans st) = clans st).
    { apply map_eq. intros c. destruct (decide (clan = c)) as [<-|Hne].
      - by rewrite lookup_alter_eq, Hc.
      - by rewrite lookup_alter_ne. }
    rewrite Hsame. apply set_clans_id. }
  split; [done|]. split; [done|]. split.
  { intros c Hne. by rewrite lookup_alter_ne. }
  intros _ data Hc.
  assert (Hrow : alter (λ c, mkClan (clan_points c) (last_week_start c)
                                    (last_week_points c) cap)
                       clan (clans st) !! clan
                 = Some (mkClan (clan_points data) (last_week_start data)
                                (last_week_points data) cap))
    by by rewrite lookup_alter_eq, Hc.
  split; [done|]. intros amount.
  match goal with
  | |- (can_add_to_clan now clan amount ?s).1 = _ =>
      rewrite (can_add_to_clan_row now clan amount s _ Hrow)
  end.
  simpl. destruct data as [p l w m]. simpl.
  by rewrite (current_week_row_points_cap now p l w cap m).
Qed.

Lemma setweeklycap_effect_witness :
  (can_add_to_clan Sample.monday_noon "Wolves" 1
     (setweeklycap "Wolves" 100 Sample.budget_state).2).1
  = Z.leb (300 + 1) 100.
Proof.
  apply (proj2 (proj2 (proj2 (proj2 (proj2 (proj2
           (setweeklycap_effect Sample.monday_noon "Wolves" 100
              Sample.budget_state)))))) eq_refl
           (mkClan 300 (Iso Sample.this_monday) 0 20000) eq_refl).
Defined.

(** X19: after [setbonusrole] the bonus role is the given name: a member
    has the bonus exactly when the name is not empty and he holds a role
    of that name.  The whitelist and every table but the configuration are
    as before. *)
Theorem setbonusrole_effect name author st :
  let st' := setbonusrole name st in
  get_bonus_role st' = Some name
  ∧ (has_bonus_role st' author = true
     ↔ name ≠ ""%string
       ∧ ∃ role, role ∈ member_roles author ∧ role_name role = name)
  ∧ (∀ r, r ∈ get_whitelist_roles st' ↔ r ∈ get_whitelist_roles st)
  ∧ clans st' = clans st ∧ users st' = users st ∧ logs st' = logs st.
Proof.
  simpl.
  assert (Hget : get_bonus_role (setbonusrole name st) = Some name)
    by apply lookup_insert_eq.
  split; [done|]. split; [|split; [|done]].
  - unfold has_bonus_role. rewrite Hget. simpl.
    rewrite andb_true_iff, negb_true_iff, bool_decide_eq_false, existsb_exists.
    split; intros [Hne Hex]; (split; [done|]);
      destruct Hex as (role & H1 & H2); exists role.
    + apply bool_decide_eq_true in H2. split; [by apply list_elem_of_In|done].
    + split; [by apply list_elem_of_In|by apply bool_decide_eq_true].
  - intros r. rewrite !get_whitelist_roles_elem. simpl.
    split; intros (key & Hl & Hk); exists key; (split; [|done]).
    + destruct (decide ("bonus_role"%string = key)) as [<-|Hne];
        [vm_compute in Hk; congruence|].
      by rewrite lookup_insert_ne in Hl.
    + destruct (decide ("bonus_role"%string = key)) as [<-|Hne];
        [vm_compute in Hk; congruence|].
      by rewrite lookup_insert_ne.
Qed.

Lemma setbonusrole_effect_witness :
  has_bonus_role (setbonusrole "VIP" Sample.empty_state) Sample.alice = true.
Proof.
  apply (setbonusrole_effect "VIP" Sample.alice Sample.empty_state).
  split; [discriminate|]. exists Sample.vip_role. split; [|reflexivity].
  right. left.
Defined.

(** ** The shop catalogue *)

Lemma find_snoc {A} (f : A → bool) (l : list A) (x : A) :
  find f (l ++ [x])
  = match find f l with
    | Some y => Some y
    | None => if f x then Some x else None
    end.
Proof.
  induction l as [|y l IH]; simpl; [done|].
  destruct (f y); [done|exact IH].
Qed.

Lemma shop_id_below_max (rows : list ShopRow) r :
  r ∈ rows → shop_id r <= foldr Z.max 0 (shop_id <$> rows).
Proof.
  induction rows as [|x rows IH]; intros Hin; [by apply elem_of_nil in Hin|].
  rewrite fmap_cons. cbn [foldr].
  apply elem_of_cons in Hin as [->|Hin]; [lia|].
  specialize (IH Hin). lia.
Qed.

(** X20: [additem] adds a row exactly when the cost fits SQLite's 64-bit
    integer, and otherwise leaves the store as it was.  The row it adds has
    a fresh id.  The reply to a purchase of any other item is as before,
    and so is the reply for an item of the same name that the shop already
    sold: the older row is the one a purchase finds.  For a name the shop
    did not sell, a buyer who holds the cost, and whose points less the
    cost still fit 64 bits, is charged the cost just given. *)
Theorem additem_effect author_id name cost st :
  let r := additem name cost st in
  let sold n := find (λ r, bool_decide (shop_name r = n)) (shop st) in
  (r.1 = true ↔ INT64_MIN <= cost <= INT64_MAX)
  ∧ (r.1 = false → r.2 = st)
  ∧ (NoDup (shop_id <$> shop st) → NoDup (shop_id <$> shop r.2))
  ∧ (∀ n, n ≠ name ∨ is_Some (sold n) →
          (purchase author_id n r.2).1 = (purchase author_id n st).1)
  ∧ (r.1 = true → sold name = None →
     ∀ row, users st !! author_id = Some row →
            cost <= user_points row →
            user_points row - cost <= INT64_MAX →
            (purchase author_id name r.2).1 = Purchased cost)
  ∧ clans r.2 = clans st ∧ users r.2 = users st ∧ logs r.2 = logs st.
Proof.
  unfold additem.
  destruct (Z.ltb_spec cost INT64_MIN);
    [simpl; repeat split; try done; lia|].
  destruct (Z.ltb_spec INT64_MAX cost);
    [simpl; repeat split; try done; lia|].
  simpl. split; [split; [lia|done]|]. split; [done|].
  split; [|split; [|split; [|done]]].
  - intros Hnd. rewrite fmap_app. apply NoDup_app. split; [done|]. split.
    + intros i Hi. simpl. rewrite list_elem_of_singleton. intros ->.
      apply list_elem_of_fmap in Hi as (r & Hid & Hr).
      pose proof (shop_id_below_max _ _ Hr) as Hmax.
      change (1 + foldr Z.max 0 (shop_id <$> shop st) = shop_id r) in Hid.
      lia.
    + simpl. apply NoDup_singleton.
  - intros n Hn. unfold purchase. simpl. rewrite find_snoc. simpl.
    destruct (find _ (shop st)) as [item|] eqn:Hfind.
    + destruct (users st !! author_id) as [row|]; [|done].
      by destruct (Z.ltb (user_points row) (shop_cost item)).
    + destruct Hn as [Hne|[? ?]]; [|done].
      by rewrite bool_decide_eq_false_2 by done.
  - intros _ Hnone row Hrow Hcost _. unfold purchase. simpl.
    rewrite find_snoc, Hnone. simpl.
    rewrite bool_decide_eq_true_2 by done. simpl. rewrite Hrow.
    destruct (Z.ltb_spec (user_points row) cost); [lia|done].
Qed.

Lemma additem_effect_witness :
  (purchase 2 "Shield" (additem "Shield" 25 Sample.shop_state).2).1
  = Purchased 25.
Proof.
  apply (proj1 (proj2 (proj2 (proj2 (proj2
           (additem_effect 2 "Shield" 25 Sample.shop_state)))))
           eq_refl eq_refl
           (mkUser (Some "Wolves"%string) 100 0 (Iso Sample.this_monday)
                   (Iso Sample.this_monday) 2000) eq_refl).
  - simpl. lia.
  - vm_compute. discriminate.
Defined.

Lemma additem_sample_runs :
  (additem "Crown" (2 ^ 63) Sample.shop_state) = (false, Sample.shop_state)
  ∧ (purchase 2 "Sword" (additem "Sword" 5 Sample.shop_state).2).1
    = Purchased 30.
Proof. vm_compute. split; reflexivity. Qed.

(** ** A new day *)

(** X21: when the tracker's entry of a user is of another day, or the user
    has none, the daily check starts the day anew: the entry becomes today
    with 0 points, whether the check passes or not, and the check passes
    exactly when the amount alone is at most 500. *)
Theorem check_daily_limit_new_day now user_id amount st :
  (∀ e, user_daily_points st !! user_id = Some e →
        daily_date e ≠ Some (utc_date now)) →
  let r := check_daily_limit now user_id amount st in
  r.1 = Z.leb amount 500
  ∧ user_daily_points r.2 !! user_id = Some (mkDaily (Some (utc_date now)) 0)
  ∧ (∀ u, u ≠ user_id → user_daily_points r.2 !! u = user_daily_points st !! u)
  ∧ clans r.2 = clans st ∧ users r.2 = users st ∧ logs r.2 = logs st.
Proof.
  intros Hold. unfold check_daily_limit, defaultdict_get.
  destruct (user_daily_points st !! user_id) as [e|] eqn:He.
  - destruct (decide (daily_date e ≠ Some (utc_date now))) as [_|Hsame];
      [|destruct Hsame; by apply Hold].
    simpl. rewrite lookup_insert_eq.
    repeat split; try done. intros u Hne. by rewrite lookup_insert_ne.
  - simpl. rewrite insert_insert_eq, lookup_insert_eq.
    repeat split; try done. intros u Hne. by rewrite lookup_insert_ne.
Qed.

Lemma check_daily_limit_new_day_witness :
  (check_daily_limit Sample.wednesday_noon 2 500 Sample.budget_state).1
  = Z.leb 500 500.
Proof.
  apply (check_daily_limit_new_day Sample.wednesday_noon 2 500
           Sample.budget_state).
  intros e He. vm_compute in He. injection He as <-.
  vm_compute. discriminate.
Defined.

(** ** Who earns from a message *)

Lemma add_points_true_inv now user_id clan amount source channel_id st st' :
  add_points_to_clan_and_user now user_id clan amount source channel_id st
  = (true, st') →
  is_Some (clans st !! clan)
  ∧ logs st' = logs st ++ [mkLog user_id amount source now channel_id].
Proof.
  intros Hrun.
  destruct (clans st !! clan) as [data|] eqn:Hc;
    [|by rewrite add_points_missing_clan in Hrun].
  split; [done|].
  destruct (Z.le_gt_cases (clan_points (current_week_row now data) + amount)
              (max_points data)) as [Hfit|Hover];
    [|by rewrite (add_points_over_cap _ _ _ _ _ _ _ _ Hc Hover) in Hrun].
  destruct (check_daily_limit now user_id amount
              (set_clans (<[clan := current_week_row now data]> (clans st)) st)).1
    eqn:Hd;
    [|by rewrite (add_points_over_budget _ _ _ _ _ _ _ _ Hc Hfit Hd) in Hrun].
  rewrite (add_points_accepted _ _ _ _ _ _ _ _ Hc Hfit Hd) in Hrun.
  injection Hrun as <-. rewrite apply_award_logs.
  by destruct (check_daily_limit_tables now user_id amount
                 (set_clans (<[clan := current_week_row now data]> (clans st)) st))
    as (_ & _ & -> & _).
Qed.

(** X22: a message earns points only for an author who, as a member of the
    guild, holds a role that bears the name of an existing clan, the clan
    he is then counted in; the award is written as one log row with source
    [message], the instant and the channel of the message. *)
Theorem on_message_award_needs_clan_role now message st r st' :
  on_message now message st = (Some r, st') →
  (∃ g member clan_role,
     msg_guild message = Some g
     ∧ get_member g (member_id (msg_author message)) = Some member
     ∧ role_in clan_role (member_roles member) = true
     ∧ is_Some (clans st !! role_name clan_role)
     ∧ (users st' !! member_id (msg_author message)) ≫= user_clan_name
       = Some (role_name clan_role))
  ∧ logs st'
    = logs st ++ [mkLog (member_id (msg_author message)) r.1 "message" now
                        (Some (msg_channel_id message))].
Proof.
  unfold on_message. cbv zeta.
  destruct (_ || _); [done|].
  assert (Hrl : logs (is_rate_limited now (member_id (msg_author message)) st).2
                = logs st
                ∧ clans (is_rate_limited now (member_id (msg_author message)) st).2
                  = clans st).
  { unfold is_rate_limited. by destruct (defaultdict_get 0 _ _). }
  destruct (is_rate_limited now (member_id (msg_author message)) st)
    as [limited st1].
  simpl in Hrl. destruct Hrl as [Hl1 Hc1].
  destruct limited; [done|].
  destruct (_ || _); [done|].
  match goal with
  | |- context [get_user_clan ?n ?u ?g ?s] =>
      pose proof (get_user_clan_tables n u g s) as (Hc3 & Hl3 & _);
      pose proof (get_user_clan_result_stored n u g s) as Hstored;
      destruct (get_user_clan n u g s) as [clan st3]
  end.
  simpl in Hc3, Hl3, Hstored.
  destruct clan as [clan|]; [|done].
  destruct (msg_guild message) as [g|]; [|done].
  destruct (negb (str_truthy _)); [done|].
  destruct (utils_get_role (guild_roles g) clan) as [clan_role|] eqn:Hrole;
    [|done].
  destruct (get_member g (member_id (msg_author message))) as [member|] eqn:Hm;
    [|done].
  destruct (role_in clan_role (member_roles member)) eqn:Hin; [|done].
  simpl.
  match goal with
  | |- context [add_points_to_clan_and_user ?n ?u ?c ?a ?s ?ch ?s3] =>
      pose proof (add_points_true_inv n u c a s ch s3) as Hadd;
      destruct (add_points_to_clan_and_user n u c a s ch s3) as [ok st4] eqn:Hrun
  end.
  destruct ok; [|done].
  intros [= <- <-]. simpl.
  destruct (Hadd st4 eq_refl) as [Hclan Hlogs].
  apply find_some in Hrole as [_ Hname].
  apply bool_decide_eq_true in Hname. subst clan.
  split; [|by rewrite Hlogs, Hl3, Hl1].
  exists g, member, clan_role.
  split; [done|]. split; [done|]. split; [done|].
  split; [by rewrite <- Hc1, <- Hc3|].
  (* the award keeps the clan name of an existing row *)
  clear Hadd.
  assert (Hrow3 : ∃ row, users st3 !! member_id (msg_author message) = Some row
                         ∧ user_clan_name row = Some (role_name clan_role)).
  { destruct (users st3 !! member_id (msg_author message)) as [row|];
      simpl in Hstored; [eauto|done]. }
  destruct Hrow3 as (row & Hrow & Hname).
  destruct (clans st3 !! role_name clan_role) as [data|] eqn:Hc;
    [|by rewrite add_points_missing_clan in Hrun].
  destruct (Z.le_gt_cases
              (clan_points (current_week_row now data)
               + message_amount (has_bonus_role st3 (msg_author message))
                   (Z.leb 5 (weekday now)) (msg_content message))
              (max_points data)) as [Hfit|Hover];
    [|by rewrite (add_points_over_cap _ _ _ _ _ _ _ _ Hc Hover) in Hrun].
  match type of Hrun with
  | add_points_to_clan_and_user ?n ?u ?c ?a ?s ?ch ?s3 = _ =>
      destruct (check_daily_limit n u a
                  (set_clans (<[c := current_week_row n data]> (clans s3)) s3)).1
        eqn:Hd;
      [rewrite (add_points_accepted _ _ _ _ _ _ _ _ Hc Hfit Hd) in Hrun
      |by rewrite (add_points_over_budget _ _ _ _ _ _ _ _ Hc Hfit Hd) in Hrun];
      pose proof (check_daily_limit_tables n u a
                    (set_clans (<[c := current_week_row n data]> (clans s3)) s3))
        as (_ & Hu2 & _)
  end.
  injection Hrun as <-. unfold apply_award.
  match goal with
  | |- context [check_achievements ?n ?u ?s] =>
      destruct (check_achievements_tables n u s) as (_ & -> & _)
  end.
  simpl. simpl in Hu2. rewrite Hu2, Hrow. simpl.
  by rewrite lookup_insert_eq.
Qed.

Lemma on_message_award_needs_clan_role_witness :
  logs (on_message Sample.saturday_noon Sample.long_message Sample.base_state).2
  = logs Sample.base_state
    ++ [mkLog 1 8 "message" Sample.saturday_noon (Some 7)].
Proof.
  apply (on_message_award_needs_clan_role Sample.saturday_noon
           Sample.long_message Sample.base_state (8, None)
           (on_message Sample.saturday_noon Sample.long_message
              Sample.base_state).2).
  apply pair_eta. vm_compute. reflexivity.
Defined.

(** ** Daily challenge *)

(** X23: a challenge is stored exactly when its reward lies between 1 and
    1000; a refusal leaves the table as it was.  A stored challenge is the
    one shown for the rest of its day, replaces an earlier one of the same
    day, and leaves the challenges of other days alone. *)
Theorem setchallenge_round_trip now now' reward_points description table :
  let r := setchallenge now reward_points description table in
  (r.1 = true ↔ 1 <= reward_points <= 1000)
  ∧ (r.1 = false → r.2 = table)
  ∧ (r.1 = true → utc_date now' = utc_date now →
     dailychallenge now' r.2 = Some (description, reward_points))
  ∧ (utc_date now' ≠ utc_date now →
     dailychallenge now' r.2 = dailychallenge now' table).
Proof.
  unfold setchallenge, dailychallenge.
  destruct (Z.leb_spec reward_points 0);
    [simpl; repeat split; try done; lia|].
  destruct (Z.ltb_spec 1000 reward_points);
    [simpl; repeat split; try done; lia|].
  simpl. split; [split; [lia|done]|]. split; [done|]. split.
  - intros _ ->. apply lookup_insert_eq.
  - intros Hne. by rewrite lookup_insert_ne.
Qed.

Lemma setchallenge_round_trip_witness :
  dailychallenge Sample.monday_noon
    (setchallenge Sample.this_monday 50 "Say hello" ∅).2
  = Some ("Say hello"%string, 50).
Proof.
  apply (setchallenge_round_trip Sample.this_monday Sample.monday_noon 50
           "Say hello" ∅).
  - reflexivity.
  - vm_compute. reflexivity.
Defined.
